(** * cgcloud spark-tools: master discovery and slaves-file management

    A shallow embedding of [cgcloud.spark_tools.SparkTools]
    (src/cgcloud/spark/cgcloud-spark-tools/cgcloud/spark_tools/__init__.py).

    Python 2 [str] values are byte strings and are modelled as [string];
    Python [set]s of strings as [gset string]; the file system as a finite
    map from paths to contents.  Everything outside the process (the EC2
    directory, child processes, the clock, the logger) is described by the
    answers it gives and by the trace of events the code emits.

    The unbounded waits of [start] for cloud-init and for the master's SSH
    port are not part of the embedding: the properties below are about what
    the node does once its identity is known.  The poll for the
    [spark_master] tag is embedded with fuel, as [master_id_loop]. *)

From Stdlib Require Import ZArith Ascii.
From stdpp Require Import gmap strings list sorting.

Local Open Scope Z_scope.
Local Open Scope stdpp_scope.

(** ** Python string primitives *)

Module Py.

(** [str.isspace] on a single byte in the C locale. *)
Definition isspace (c : ascii) : bool :=
  match c with
  | "009" | "010" | "011" | "012" | "013" | " " => true
  | _ => false
  end%char.

Definition newline : ascii := "010"%char.
Definition nl : string := String newline "".

Fixpoint lstrip (s : string) : string :=
  match s with
  | "" => ""
  | String c s' => if isspace c then lstrip s' else s
  end.

Fixpoint rstrip (s : string) : string :=
  match s with
  | "" => ""
  | String c s' =>
      match rstrip s' with
      | "" => if isspace c then "" else String c ""
      | r => String c r
      end
  end.

(** [s.strip()] *)
Definition strip (s : string) : string := rstrip (lstrip s).

(** [s.split(sep)] for a one-byte separator; the result is never empty. *)
Fixpoint split (sep : ascii) (s : string) : list string :=
  match s with
  | "" => [""]
  | String c s' =>
      if decide (c = sep) then "" :: split sep s'
      else match split sep s' with
           | [] => [String c ""]
           | h :: t => String c h :: t
           end
  end.

(** [sep.join(l)] *)
Fixpoint join (sep : string) (l : list string) : string :=
  match l with
  | [] => ""
  | [x] => x
  | x :: l' => x +:+ sep +:+ join sep l'
  end.

(** [f.readlines()] on the whole content: lines keep their terminator. *)
Fixpoint readlines (s : string) : list string :=
  match s with
  | "" => []
  | String c s' =>
      if decide (c = newline) then nl :: readlines s'
      else match readlines s' with
           | [] => [String c ""]
           | l :: ls => String c l :: ls
           end
  end.

(** [f.writelines(lines)] into an empty file. *)
Definition writelines (lines : list string) : string :=
  foldr String.app "" lines.

Fixpoint startswith (p s : string) : bool :=
  match p, s with
  | "", _ => true
  | String a p', String b s' => if decide (a = b) then startswith p' s' else false
  | _, "" => false
  end.

(** [needle in hay] *)
Fixpoint contains (needle hay : string) : bool :=
  startswith needle hay ||
  match hay with
  | "" => false
  | String _ hay' => contains needle hay'
  end.

Definition in_range (lo hi c : ascii) : bool :=
  bool_decide (nat_of_ascii lo ≤ nat_of_ascii c ≤ nat_of_ascii hi)%nat.

(** The character classes [[a-z]], [[0-9]] and [[1-9]]. *)
Definition lower (c : ascii) : bool := in_range "a" "z" c.
Definition digit (c : ascii) : bool := in_range "0" "9" c.
Definition digit19 (c : ascii) : bool := in_range "1" "9" c.

(** The longest prefix of [s] in the class [p], and the rest: what a greedy
    [[p]*] consumes. *)
Fixpoint span (p : ascii → bool) (s : string) : string * string :=
  match s with
  | "" => ("", "")
  | String c s' =>
      if p c then let '(a, b) := span p s' in (String c a, b)
      else ("", s)
  end.

(** [$] without [re.MULTILINE]: at the end of the string, or just before a
    newline that ends the string. *)
Definition at_end (s : string) : bool :=
  bool_decide (s = "") || bool_decide (s = nl).

(** [re.match] of the pattern [^(G1)(G2)$] against [s], where [G1] is
    [[a-z]{2}-[a-z]+-[1-9][0-9]*] and [G2] is [[a-z]]: the two groups of the
    match, or [None].  Each repetition is followed by a
    character outside its class, so the greedy choice is the only one. *)
Definition match_zone (s : string) : option (string * string) :=
  match s with
  | String a (String b (String h1 s1)) =>
      if lower a && lower b && bool_decide (h1 = "-"%char) then
        let '(letters, s2) := span lower s1 in
        match s2 with
        | String h2 (String d s3) =>
            if bool_decide (letters ≠ "") && bool_decide (h2 = "-"%char) && digit19 d then
              let '(digits, s4) := span digit s3 in
              match s4 with
              | String c s5 =>
                  if lower c && at_end s5
                  then Some (String a (String b ("-" +:+ letters +:+ "-" +:+ String d digits)),
                             String c "")
                  else None
              | "" => None
              end
            else None
        | _ => None
        end
      else None
  | _ => None
  end.

(** [list(s); l.sort()] on a set of strings. *)
Definition sorted_list (s : gset string) : list string :=
  merge_sort String.le (elements s).

(** The order of Python 2 on values that are a [str] or [None]: [None]
    comes before every string. *)
Definition item_le (x y : option string) : Prop :=
  match x, y with
  | None, _ => True
  | Some _, None => False
  | Some a, Some b => String.le a b
  end.

#[global] Instance item_le_dec : RelDecision item_le.
Proof. intros [a|] [b|]; simpl; apply _. Defined.

(** [l = list(s); l.sort()] for a set whose items are a [str] or [None]. *)
Definition sorted_items (s : gset (option string)) : list (option string) :=
  merge_sort item_le (elements s).

(** [sep.join(items)]: [None] stands for the TypeError that Python raises
    when an item is not a string. *)
Definition join_items (sep : string) (items : list (option string)) : option string :=
  join sep <$> mapM id items.

End Py.

(** ** The world outside the process *)

(** Exceptions that the modelled code lets escape. *)
Inductive exc : Type :=
  | StopIteration
  | AssertionError
  | RuntimeError (msg : string)
  | IOError (path : string)
  | TypeError.

Inductive level : Type := INFO | WARN.

(** A [boto.ec2.instance.Instance], reduced to the attributes that are
    read.  boto leaves [private_ip_address] at [None] for an instance that
    has no private IP, such as a terminated one that still carries its
    tags. *)
Record Instance : Type := { id : string; private_ip_address : option string }.

(** A [boto.ec2.instance.Reservation]. *)
Record Reservation : Type := { instances : list Instance }.

(** A [boto.ec2.tag.Tag]. *)
Record Tag : Type := { value : string }.

(** The two ways [get_all_reservations] is called. *)
Inductive reservation_query : Type :=
  | Filters (name val : string)
  | InstanceIds (ids : list string).

(** What the process does to its environment, in order.  The arguments of
    log format strings are not recorded. *)
Inductive event : Type :=
  | Log (lvl : level) (msg : string)
  | Flock (path : string)
  | GetAllReservations (q : reservation_query)
  | GetAllTags (resource_id key : string)
  | Call (argv : list string) (status_code : Z)
  | Sleep (seconds : Z).

(** Files are a flat map from path to content: directories are taken to
    exist and to be writable.  [spawned] counts the child processes run so
    far. *)
Record world : Type := World {
  files : gmap string string;
  trace : list event;
  spawned : nat
}.

(** The answers of the EC2 API of the region of the node. *)
Record EC2 : Type := {
  ec2_reservations : reservation_query → list Reservation;
  ec2_tags : string → string → list Tag
}.

(** A [SparkTools] object.  The memoized properties that are read from the
    instance metadata endpoint ([node_ip], [instance_id],
    [availability_zone]) and [master_id], which polls the [spark_master]
    tag until it is set, are given by their values.  Resolving [master_id]
    goes through the EC2 connection, so [ec2] is the memoized connection of
    a node whose region has been parsed.  [os_geteuid] and [os_expanduser]
    are the answers of the operating system, and [exit_status n] is the
    exit status of the n-th child process. *)
Record SparkTools : Type := {
  user : string;
  install_dir : string;
  node_ip : string;
  instance_id : string;
  availability_zone : string;
  master_id : string;
  ec2 : EC2;
  os_geteuid : Z;
  os_expanduser : string → string;
  exit_status : nat → Z
}.

(** ** A state and exception monad over the world *)

Definition M (A : Type) : Type := world → (exc + A) * world.

Definition ret {A} (x : A) : M A := λ w, (inr x, w).

Definition bind {A B} (m : M A) (f : A → M B) : M B :=
  λ w, match m w with
       | (inr x, w') => f x w'
       | (inl e, w') => (inl e, w')
       end.

Definition raise {A} (e : exc) : M A := λ w, (inl e, w).

Declare Scope py_scope.
Delimit Scope py_scope with py.
Notation "x <- m ; k" := (bind m (λ x, k))
  (at level 100, m at next level, right associativity) : py_scope.
Notation "m ;; k" := (bind m (λ _, k))
  (at level 100, right associativity) : py_scope.
Local Open Scope py_scope.

Definition emit (e : event) : M unit :=
  λ w, (inr (), World (files w) (trace w ++ [e]) (spawned w)).

Definition log (lvl : level) (msg : string) : M unit := emit (Log lvl msg).

(** [time.sleep(n)] *)
Definition sleep (seconds : Z) : M unit := emit (Sleep seconds).

(** [fcntl.flock(f, fcntl.LOCK_EX)]; the lock is dropped when the file is
    closed. *)
Definition flock (path : string) : M unit := emit (Flock path).

(** [open(path, 'a+')]: the file is created when it is missing. *)
Definition open_append (path : string) : M unit :=
  λ w, let content := default "" (files w !! path) in
       (inr (), World (<[path := content]> (files w)) (trace w) (spawned w)).

(** [f.readlines()] on a file just opened with ['a+'], which reads from the
    start. *)
Definition readlines (path : string) : M (list string) :=
  λ w, (inr (Py.readlines (default "" (files w !! path))), w).

(** [open(path)] or [open(path, 'r+')] followed by [read]. *)
Definition open_read (path : string) : M string :=
  λ w, match files w !! path with
       | Some content => (inr content, w)
       | None => (inl (IOError path), w)
       end.

(** [f.seek(0); f.truncate(0); f.write(content)] on an open file. *)
Definition truncate_write (path content : string) : M unit :=
  λ w, (inr (), World (<[path := content]> (files w)) (trace w) (spawned w)).

(** [f.seek(0); f.truncate(0)] on an open file. *)
Definition truncate (path : string) : M unit :=
  λ w, (inr (), World (<[path := ""]> (files w)) (trace w) (spawned w)).

(** [f.write(content)] on a file opened with ['a+']: the text goes to the
    end of the file. *)
Definition write (path content : string) : M unit :=
  λ w, (inr (),
        World (<[path := default "" (files w !! path) +:+ content]> (files w))
              (trace w) (spawned w)).

(** [prefix + value] for a [value] that is a [str] or [None]; adding
    [None] to a string raises TypeError. *)
Definition str_add (prefix : string) (value : option string) : M string :=
  match value with
  | Some s => ret (prefix +:+ s)
  | None => raise TypeError
  end.

Definition sudo : string := "/usr/bin/sudo".

(** ** SparkTools *)

Section SparkTools.

Variable self : SparkTools.

(** [self.ec2.get_all_reservations(...)] *)
Definition get_all_reservations (q : reservation_query) : M (list Reservation) :=
  emit (GetAllReservations q);;
  ret (ec2_reservations (ec2 self) q).

(** [self.ec2.get_all_tags(filters={'resource-id': ..., 'key': ...})] *)
Definition get_all_tags (resource_id key : string) : M (list Tag) :=
  emit (GetAllTags resource_id key);;
  ret (ec2_tags (ec2 self) resource_id key).

(** [subprocess.call(argv)] *)
Definition call (argv : list string) : M Z :=
  λ w, let status_code := exit_status self (spawned w) in
       (inr status_code,
        World (files w) (trace w ++ [Call argv status_code]) (S (spawned w))).

(** [(i for r in reservations for i in r.instances)] *)
Definition all_instances (reservations : list Reservation) : list Instance :=
  r ← reservations; instances r.

Definition get_instance_tag (instance_id key : string) : M (option string) :=
  tags <- get_all_tags instance_id key;
  ret (match tags with
       | t :: _ => Some (value t)
       | [] => None
       end).

(** The [master_ip] property.  Its value is a [str], or [None] when the
    master instance has no private IP. *)
Definition master_ip : M (option string) :=
  master_ip <-
    (if decide (master_id self = instance_id self) then
       let master_ip := Some (node_ip self) in
       log INFO "I am the master";;
       ret master_ip
     else
       log INFO "I am a slave";;
       reservations <- get_all_reservations (InstanceIds [master_id self]);
       let instances :=
         filter (λ i, id i = master_id self) (all_instances reservations) in
       (* master_instance = next( instances ) *)
       match instances with
       | [] => raise StopIteration
       | master_instance :: instances =>
           (* assert next( instances, None ) is None *)
           match instances with
           | [] => ret (private_ip_address master_instance)
           | _ :: _ => raise AssertionError
           end
       end);
  log INFO "Master IP is '%s'";;
  ret master_ip.

(** The read-modify-write of a file once the set of its entries is known,
    all of them strings: [if '' in s: s.remove('')], [list], [sort],
    [append('')], [seek], [truncate], [write('\n'.join(...))]. *)
Definition write_sorted (path : string) (entries : gset string) : M unit :=
  let entries := if decide ("" ∈ entries) then entries ∖ {[""]} else entries in
  let entries := Py.sorted_list entries in
  let entries := entries ++ [""] in
  truncate_write path (Py.join Py.nl entries).

Definition add_host_keys (host_keys : list string) (globally : option bool) : M unit :=
  let globally :=
    match globally with
    | None => bool_decide (os_geteuid self = 0)
    | Some b => b
    end in
  let known_hosts_path :=
    if globally then "/etc/ssh/ssh_known_hosts"
    else os_expanduser self "~/.ssh/known_hosts" in
  open_append known_hosts_path;;
  flock known_hosts_path;;
  lines <- readlines known_hosts_path;
  let keys : gset string := list_to_set (Py.strip <$> lines) in
  let keys := keys ∪ list_to_set ((λ e, Py.join " " (Py.split ":" e)) <$> host_keys) in
  write_sorted known_hosts_path keys.

(** [_.split( ':' )[ 0 ]]; [split] never returns an empty list. *)
Definition ip_of (entry : string) : string :=
  match Py.split ":" entry with
  | ip :: _ => ip
  | [] => ""
  end.

(** The same read-modify-write for the slaves file, whose entries may
    hold [None] (the private IP of an instance that has none).  Sorting a
    list with [None] in it does not raise in Python 2; the join does, and it
    is evaluated after the file has been truncated. *)
Definition write_sorted_items (path : string) (entries : gset (option string)) : M unit :=
  let entries := if decide (Some "" ∈ entries) then entries ∖ {[Some ""]} else entries in
  let entries := Py.sorted_items entries in
  let entries := entries ++ [Some ""] in
  truncate path;;
  match Py.join_items Py.nl entries with
  | Some content => write path content
  | None => raise TypeError
  end.

(** [slaves_to_add] is [None] (the default) or a list of
    [IP:SSH_KEY_ALGO:SSH_HOST_KEY] strings; [None] and [[]] are both false.
    The items of the set [slaves] are strings in the first branch and
    private IPs, which may be [None], in the second. *)
Definition manage_slaves (slaves_to_add : option (list string)) : M unit :=
  log INFO "Managing slaves file";;
  master_ip <- master_ip;
  slaves_path <- str_add "/tmp/slaves-" master_ip;
  open_append slaves_path;;
  flock slaves_path;;
  slaves <-
    match slaves_to_add with
    | Some ((_ :: _) as to_add) =>
        log INFO "Adding slaves: %r";;
        lines <- readlines slaves_path;
        let slaves : gset (option string) := list_to_set (Some ∘ Py.strip <$> lines) in
        ret (slaves ∪ list_to_set (Some ∘ ip_of <$> to_add))
    | _ =>
        log INFO "Initializing slaves file";;
        reservations <- get_all_reservations (Filters "tag:spark_master" (master_id self));
        let slaves : gset (option string) :=
          list_to_set (private_ip_address <$>
                       filter (λ i, id i ≠ master_id self) (all_instances reservations)) in
        log INFO "Found %i slave.";;
        ret slaves
    end;
  write_sorted_items slaves_path slaves;;
  match slaves_to_add with
  | Some ((_ :: _) as to_add) =>
      log INFO "Adding host keys for slaves";;
      add_host_keys to_add None
  | _ => ret ()
  end.

(** The [region] property; [assert m] raises when there is no match. *)
Definition region : M string :=
  match Py.match_zone (availability_zone self) with
  | None => raise AssertionError
  | Some (group1, _) =>
      let region := group1 in
      log INFO "Region is '%s'";;
      ret region
  end.

Definition get_master_host_key : M unit :=
  log INFO "Getting master's host key";;
  master_host_key <- get_instance_tag (master_id self) "ssh_host_key";
  match master_host_key with
  | Some (String _ _ as key) => add_host_keys ["spark-master:" +:+ key] None
  | _ => log WARN "Could not get master's host key"
  end.

(** [':'.join( f.read( ).split( )[ :2 ] )] on the host's public key file. *)
Definition get_host_key : M string :=
  content <- open_read "/etc/ssh/ssh_host_ecdsa_key.pub";
  ret (Py.join ":" (take 2 (String.words content))).

(** The body of [for tries in range( 5 )], by recursion on the range. *)
Fixpoint register_attempts (tries : list nat) : M unit :=
  match tries with
  | [] => raise (RuntimeError "Failed to register with master")
  | _ :: tries =>
      host_key <- get_host_key;
      status_code <- call [sudo; "-u"; user self; "ssh"; "spark-master";
                           "sparkbox-manage-slaves";
                           node_ip self +:+ ":" +:+ host_key];
      if decide (0 = status_code) then ret ()
      else
        log WARN "ssh returned %i, retrying in 5s";;
        sleep 5;;
        register_attempts tries
  end.

Definition register_with_master : M unit :=
  log INFO "Registering with master";;
  register_attempts (seq 0 5).

(** [hosts] is the dict in iteration order. *)
Definition patch_etc_hosts (hosts : list (string * option string)) : M unit :=
  log INFO "Patching /etc/host";;
  content <- open_read "/etc/hosts";
  let lines :=
    filter (λ line, ¬ existsb (λ host, Py.contains host line) hosts.*1)
           (Py.readlines content) in
  let lines :=
    foldl (λ lines '(host, ip),
             match ip with
             | Some (String _ _ as ip) => lines ++ [ip +:+ " " +:+ host +:+ Py.nl]
             | _ => lines
             end)
          lines hosts in
  truncate_write "/etc/hosts" (Py.writelines lines).

End SparkTools.

(** ** More of SparkTools

    The methods below are written over an explicit [self], after the
    section above. *)

(** [stop] *)
Definition stop : M unit :=
  log INFO "Stopping sparkbox";;
  patch_etc_hosts [("spark-master", None); ("spark-node", None)].

(** The [ec2] property at its first access:
    [boto.ec2.connect_to_region( self.region )].  The connection that boto
    returns for the region is the one of [self]; later accesses are
    memoized and emit nothing. *)
Definition ec2_connect (self : SparkTools) : M EC2 :=
  region self;;
  ret (ec2 self).

(** The body of [while True] in the [master_id] property, run at most
    [fuel] times; [None] when the fuel runs out before the tag is seen.
    [if master_id:] is a truth test: a missing tag and an empty value both
    take the retry branch. *)
Fixpoint master_id_poll (self : SparkTools) (fuel : nat) : M (option string) :=
  match fuel with
  | O => ret None
  | S fuel =>
      master_id <- get_instance_tag self (instance_id self) "spark_master";
      match master_id with
      | Some (String _ _ as master_id) =>
          log INFO "Master's instance ID is '%s'";;
          ret (Some master_id)
      | _ =>
          log WARN "Instance not tagged with master's instance ID, retrying";;
          sleep 5;;
          master_id_poll self fuel
      end
  end.

(** The [master_id] property at its first access, which is also the first
    use of the EC2 connection.  The [master_id] field of [self] is the value
    that this loop yields. *)
Definition master_id_loop (self : SparkTools) (fuel : nat) : M (option string) :=
  ec2_connect self;;
  master_id_poll self fuel.

(** ** Vocabulary of the properties *)

(** No newline byte occurs in [s]. *)
Fixpoint no_nl (s : string) : Prop :=
  match s with
  | "" => True
  | String c s' => c ≠ Py.newline ∧ no_nl s'
  end.

(** A token that a line-oriented file stores and gives back unchanged: it
    has no newline and no white space at either end. *)
Definition clean (s : string) : Prop := Py.strip s = s ∧ no_nl s.

(** The entries that the code reads out of a file:
    [_.strip( ) for _ in f.readlines( )]. *)
Definition stripped_lines (content : string) : list string :=
  Py.strip <$> Py.readlines content.

(** [x] is a complete, newline-terminated line of [content]. *)
Definition has_line (content x : string) : Prop :=
  x +:+ Py.nl ∈ Py.readlines content.

(** An IP is listed in a slaves file. *)
Definition ip_present (ip content : string) : Prop :=
  ip ≠ "" ∧ ip ∈ stripped_lines content.

(** Every entry followed by a newline. *)
Definition terminated (l : list string) : string :=
  foldr (λ x acc, x +:+ Py.nl +:+ acc) "" l.

(** The canonical content for a set of entries. *)
Definition canonical (entries : gset string) : string :=
  Py.join Py.nl (Py.sorted_list (entries ∖ {[""]}) ++ [""]).

(** Strictly ascending: sorted and free of duplicates. *)
Definition ascending (l : list string) : Prop :=
  Sorted String.le l ∧ NoDup l.

Fixpoint translate (from to : ascii) (s : string) : string :=
  match s with
  | "" => ""
  | String c s' => String (if decide (c = from) then to else c) (translate from to s')
  end.

(** [' '.join( _.split( ':' ) )] *)
Definition host_key_line (entry : string) : string :=
  Py.join " " (Py.split ":" entry).

Definition slaves_path (ip : string) : string := "/tmp/slaves-" +:+ ip.

Definition known_hosts_path (self : SparkTools) : string :=
  if bool_decide (os_geteuid self = 0) then "/etc/ssh/ssh_known_hosts"
  else os_expanduser self "~/.ssh/known_hosts".

(** The content of a file, empty when it does not exist. *)
Definition content_of (w : world) (path : string) : string :=
  default "" (files w !! path).

(** One [manage_slaves] call with a list of entries after the other. *)
Definition register_workers (self : SparkTools) (calls : list (list string)) : M unit :=
  foldr (λ to_add rest, manage_slaves self (Some to_add);; rest) (ret ()) calls.

Fixpoint all_in (p : ascii → bool) (s : string) : Prop :=
  match s with
  | "" => True
  | String c s' => p c ∧ all_in p s'
  end.

(** [zone] matches the availability-zone pattern with first group
    [region]: two lower-case letters, a hyphen, one or more lower-case
    letters, a hyphen, a digit other than zero, any digits, then one
    lower-case letter at the end (or before a final newline). *)
Definition zone_pattern (zone region : string) : Prop :=
  ∃ a b letters d digits c tail,
    region = String a (String b ("-" +:+ letters +:+ "-" +:+ String d digits)) ∧
    zone = region +:+ String c tail ∧
    Py.lower a ∧ Py.lower b ∧
    letters ≠ "" ∧ all_in Py.lower letters ∧
    Py.digit19 d ∧ all_in Py.digit digits ∧
    Py.lower c ∧ (tail = "" ∨ tail = Py.nl).

(** [c] does not occur in [s]. *)
Fixpoint free_of (c : ascii) (s : string) : Prop :=
  match s with
  | "" => True
  | String d s' => d ≠ c ∧ free_of c s'
  end.

(** The slaves file after one registration call. *)
Definition merged (content : string) (to_add : list string) : string :=
  canonical (list_to_set (stripped_lines content) ∪ list_to_set (ip_of <$> to_add)).

(** What the code takes from the entries of all calls, [ip_of] of each. *)
Definition ips_of (calls : list (list string)) : list string :=
  ip_of <$> concat calls.

(** Calls with at least one entry each, from which the code takes clean
    tokens; see [worker_entries] for the same in terms of the entries. *)
Definition registrations (calls : list (list string)) : Prop :=
  Forall (λ to_add, to_add ≠ [] ∧ Forall (λ e, clean (ip_of e)) to_add) calls.

(** The instances that the master-IP lookup considers. *)
Definition master_matches (self : SparkTools) : list Instance :=
  filter (λ i, id i = master_id self)
         (all_instances (ec2_reservations (ec2 self) (InstanceIds [master_id self]))).

(** The spec's AmbiguousTopology: the exception that escapes when no
    instance matches ([next] on the exhausted generator) or when a second
    one does (the assertion). *)
Definition AmbiguousTopology (e : exc) : Prop :=
  e = StopIteration ∨ e = AssertionError.

Definition is_directory_query (e : event) : Prop :=
  match e with
  | GetAllReservations _ | GetAllTags _ _ => True
  | _ => False
  end.

Definition host_key_path : string := "/etc/ssh/ssh_host_ecdsa_key.pub".

(** The command line of one registration attempt, for the content [pub] of
    the host's public key file. *)
Definition registration_command (self : SparkTools) (pub : string) : list string :=
  [sudo; "-u"; user self; "ssh"; "spark-master"; "sparkbox-manage-slaves";
   node_ip self +:+ ":" +:+ Py.join ":" (take 2 (String.words pub))].

(** The events of [n] failed attempts in a row, the first being child
    process number [first]. *)
Fixpoint failed_attempts (self : SparkTools) (pub : string) (first n : nat) : list event :=
  match n with
  | O => []
  | S n' =>
      [Call (registration_command self pub) (exit_status self first);
       Log WARN "ssh returned %i, retrying in 5s";
       Sleep 5] ++ failed_attempts self pub (S first) n'
  end.

Definition RegistrationFailed : exc := RuntimeError "Failed to register with master".

(** The directory lists [i] as a worker of the cluster of [self]: an
    instance of a reservation that it returns for the master's tag, other
    than the master itself. *)
Definition listed_worker (self : SparkTools) (i : Instance) : Prop :=
  ∃ r, r ∈ ec2_reservations (ec2 self) (Filters "tag:spark_master" (master_id self)) ∧
       i ∈ instances r ∧ id i ≠ master_id self.

(** The directory enumeration: [ip] is the private IP of a listed worker. *)
Definition enumerated (self : SparkTools) (ip : string) : Prop :=
  ∃ i, listed_worker self i ∧ private_ip_address i = Some ip.

(** Every listed worker has a private IP. *)
Definition all_addressed (self : SparkTools) : Prop :=
  ∀ i, listed_worker self i → private_ip_address i ≠ None.

(** The entries that a call of [manage_slaves] sorts and joins are all
    strings: the call has a non-empty list of entries to add, or it
    initializes from a directory all of whose listed workers have a private
    IP. *)
Definition all_strings (self : SparkTools) (slaves_to_add : option (list string)) : Prop :=
  match slaves_to_add with
  | Some (_ :: _) => True
  | _ => all_addressed self
  end.

(** The items that initialization collects, as the code computes them. *)
Definition enumeration (self : SparkTools) : list (option string) :=
  private_ip_address <$>
    filter (λ i, id i ≠ master_id self)
           (all_instances (ec2_reservations (ec2 self)
                             (Filters "tag:spark_master" (master_id self)))).

(** [ip] is the IP portion of [entry]: what stands before its first colon,
    or all of it when it holds no colon. *)
Definition ip_portion (entry ip : string) : Prop :=
  free_of ":" ip ∧ (entry = ip ∨ ∃ rest, entry = ip +:+ ":" +:+ rest).

(** [ip] is the IP portion of an entry of one of the calls. *)
Definition registered (calls : list (list string)) (ip : string) : Prop :=
  ∃ to_add e, to_add ∈ calls ∧ e ∈ to_add ∧ ip_portion e ip.

(** A sequence of registration calls: every call has at least one entry
    (an empty list initializes instead, see [manage_slaves]), and every
    entry follows the format that the code documents, IP:ALGO:KEY without
    the spaces, so that its IP portion is a clean token. *)
Definition worker_entries (calls : list (list string)) : Prop :=
  Forall (λ to_add, to_add ≠ [] ∧
                    Forall (λ e, ∀ ip, ip_portion e ip → clean ip) to_add) calls.

(** [needle] occurs somewhere in [hay]. *)
Definition substring (needle hay : string) : Prop :=
  ∃ pre post, hay = pre +:+ needle +:+ post.

(** Some alias occurs somewhere in the line. *)
Definition mentions (aliases : list string) (line : string) : Prop :=
  ∃ host, host ∈ aliases ∧ substring host line.

(** The lines for the aliases that have an IP, in the order of the dict. *)
Definition fresh_entries (hosts : list (string * option string)) : list string :=
  omap (λ '(host, ip),
          match ip with
          | Some (String _ _ as ip) => Some (ip +:+ " " +:+ host +:+ Py.nl)
          | _ => None
          end) hosts.

(** What follows a greedy repetition of the class [p]. *)
Definition stops (p : ascii → bool) (s : string) : Prop :=
  match s with
  | "" => True
  | String c _ => p c = false
  end.

Definition etc_hosts : string := "/etc/hosts".

(** A complete line: a newline-free body and its terminator. *)
Definition proper_line (line : string) : Prop :=
  ∃ body, no_nl body ∧ line = body +:+ Py.nl.

(** The shape of what [readlines] returns: complete lines, except that the
    last one may lack its terminator. *)
Fixpoint lines_wf (ls : list string) : Prop :=
  match ls with
  | [] => True
  | l :: ls' =>
      match ls' with
      | [] => proper_line l ∨ (l ≠ "" ∧ no_nl l)
      | _ :: _ => proper_line l ∧ lines_wf ls'
      end
  end.

(** The text is empty or ends with a newline. *)
Definition newline_terminated (content : string) : Prop :=
  content = "" ∨ ∃ body, content = body +:+ Py.nl.

(** The entries of the dict that get a line hold one line each. *)
Definition single_line_entries (hosts : list (string * option string)) : Prop :=
  ∀ host ip, (host, Some ip) ∈ hosts → ip ≠ "" → no_nl ip ∧ no_nl host.

(** A white-space separated token: not empty, no white space inside. *)
Definition token (t : string) : Prop :=
  t ≠ "" ∧ all_in (λ c, negb (Ascii.is_space c)) t.

(** The known-hosts file that [add_host_keys] works on: the system-wide
    one when [globally] is true, or is left out by a process whose
    effective uid is 0. *)
Definition known_hosts_file (self : SparkTools) (globally : option bool) : string :=
  if match globally with
     | None => bool_decide (os_geteuid self = 0)
     | Some b => b
     end
  then "/etc/ssh/ssh_known_hosts"
  else os_expanduser self "~/.ssh/known_hosts".

(** The events of [n] polls of the [spark_master] tag that do not see it. *)
Fixpoint idle_polls (self : SparkTools) (n : nat) : list event :=
  match n with
  | O => []
  | S n' =>
      [GetAllTags (instance_id self) "spark_master";
       Log WARN "Instance not tagged with master's instance ID, retrying";
       Sleep 5] ++ idle_polls self n'
  end.

(** The last character of a string. *)
Fixpoint last_char (s : string) : option ascii :=
  match s with
  | "" => None
  | String c "" => Some c
  | String _ s' => last_char s'
  end.

(** ** A small cluster *)

Definition cluster_reservations (q : reservation_query) : list Reservation :=
  let master := {| id := "i-m"; private_ip_address := Some "10.0.0.1" |} in
  match q with
  | Filters _ _ =>
      [ {| instances := [master; {| id := "i-a"; private_ip_address := Some "10.0.0.2" |}] |};
        {| instances := [{| id := "i-b"; private_ip_address := Some "10.0.0.3" |}] |} ]
  | InstanceIds _ => [ {| instances := [master] |} ]
  end.

Definition cluster (host_key : list Tag) : EC2 :=
  {| ec2_reservations := cluster_reservations;
     ec2_tags := λ _ key, if decide (key = "ssh_host_key") then host_key else [{| value := "i-m" |}] |}.

Definition home_of (path : string) : string :=
  match path with
  | String "~" rest => "/home/sparkbox" +:+ rest
  | _ => path
  end.

(** The coordinator of the cluster, running as the service user. *)
Definition coordinator : SparkTools :=
  {| user := "sparkbox"; install_dir := "/opt";
     node_ip := "10.0.0.1"; instance_id := "i-m";
     availability_zone := "us-west-2a"; master_id := "i-m";
     ec2 := cluster [{| value := "ecdsa-sha2-nistp256:AAAAE2" |}];
     os_geteuid := 1000; os_expanduser := home_of;
     exit_status := λ _, 0 |}.

(** A worker, booting as root, whose first [failures] registration
    attempts fail, and that sees the tags [host_key] on the master. *)
Definition worker (failures : nat) (host_key : list Tag) : SparkTools :=
  {| user := "sparkbox"; install_dir := "/opt";
     node_ip := "10.0.0.2"; instance_id := "i-a";
     availability_zone := "us-west-2a"; master_id := "i-m";
     ec2 := cluster host_key;
     os_geteuid := 0; os_expanduser := home_of;
     exit_status := λ n, if decide (n < failures)%nat then 255 else 0 |}.

Definition no_files : world := World ∅ [] 0.

Definition with_file (path content : string) (w : world) : world :=
  World (<[path := content]> (files w)) (trace w) (spawned w).

Definition rsa_a : string := "10.0.0.2:rsa:BBB".
Definition rsa_b : string := "10.0.0.3:rsa:CCC".
Definition demo_pub : string := "ecdsa-sha2-nistp256 AAAAE2 root@host" +:+ Py.nl.
Definition demo_tag : Tag := {| value := "ecdsa-sha2-nistp256:AAAAE2" |}.
Definition demo_hosts : string :=
  "127.0.0.1 localhost" +:+ Py.nl +:+ "10.9.9.9 spark-node" +:+ Py.nl.

(** A node tagged with a master that the directory does not list. *)
Definition lost : SparkTools :=
  {| user := "sparkbox"; install_dir := "/opt";
     node_ip := "10.0.0.4"; instance_id := "i-c";
     availability_zone := "us-west-2a"; master_id := "i-gone";
     ec2 := cluster [];
     os_geteuid := 0; os_expanduser := home_of;
     exit_status := λ _, 0 |}.

(** The coordinator of the cluster while a terminated worker, which has no
    private IP any more, is still listed under the master's tag. *)
Definition stale_reservations (q : reservation_query) : list Reservation :=
  match q with
  | Filters _ _ =>
      cluster_reservations q
      ++ [ {| instances := [{| id := "i-t"; private_ip_address := None |}] |} ]
  | InstanceIds _ => cluster_reservations q
  end.

Definition stale_coordinator : SparkTools :=
  {| user := "sparkbox"; install_dir := "/opt";
     node_ip := "10.0.0.1"; instance_id := "i-m";
     availability_zone := "us-west-2a"; master_id := "i-m";
     ec2 := {| ec2_reservations := stale_reservations; ec2_tags := λ _ _, [] |};
     os_geteuid := 1000; os_expanduser := home_of;
     exit_status := λ _, 0 |}.

(** A worker whose master instance has no private IP. *)
Definition orphan : SparkTools :=
  {| user := "sparkbox"; install_dir := "/opt";
     node_ip := "10.0.0.2"; instance_id := "i-a";
     availability_zone := "us-west-2a"; master_id := "i-m";
     ec2 := {| ec2_reservations :=
                 λ _, [ {| instances := [{| id := "i-m"; private_ip_address := None |}] |} ];
               ec2_tags := λ _ _, [] |};
     os_geteuid := 0; os_expanduser := home_of;
     exit_status := λ _, 0 |}.

(** A node that carries no tag yet. *)
Definition untagged : SparkTools :=
  {| user := "sparkbox"; install_dir := "/opt";
     node_ip := "10.0.0.4"; instance_id := "i-c";
     availability_zone := "us-west-2a"; master_id := "i-m";
     ec2 := {| ec2_reservations := cluster_reservations; ec2_tags := λ _ _, [] |};
     os_geteuid := 0; os_expanduser := home_of;
     exit_status := λ _, 0 |}.

(** The dict that [start] passes to [patch_etc_hosts] on the worker of the
    cluster, and the one that [stop] passes. *)
Definition start_hosts : list (string * option string) :=
  [("spark-master", Some "10.0.0.1"); ("spark-node", Some "10.0.0.2")].

Definition stop_hosts : list (string * option string) :=
  [("spark-master", None); ("spark-node", None)].

Definition patched_hosts : string :=
  "127.0.0.1 localhost" +:+ Py.nl +:+ "10.0.0.1 spark-master" +:+ Py.nl
  +:+ "10.0.0.2 spark-node" +:+ Py.nl.

(** Closed side conditions on concrete strings. *)
Ltac solve_no_nl := cbv [no_nl]; repeat split; discriminate.
Ltac solve_clean := split; [vm_compute; reflexivity | solve_no_nl].
Ltac solve_elem := apply (bool_decide_unpack _); vm_compute; exact I.
Ltac solve_token := split; [discriminate|vm_compute; repeat split].
Ltac solve_free := cbv [free_of]; repeat split; discriminate.

(** ** Evaluation on small inputs *)

Example readlines_ex :
  Py.readlines ("a" +:+ Py.nl +:+ Py.nl +:+ "bc") = ["a" +:+ Py.nl; Py.nl; "bc"].
Proof. reflexivity. Qed.

Example split_ex : Py.split ":" "10.0.0.5:ecdsa-sha2:AAAA" = ["10.0.0.5"; "ecdsa-sha2"; "AAAA"].
Proof. reflexivity. Qed.

Example strip_ex : Py.strip (" a b " +:+ Py.nl) = "a b".
Proof. reflexivity. Qed.

Example join_ex : Py.join Py.nl ["a"; "b"; ""] = "a" +:+ Py.nl +:+ "b" +:+ Py.nl.
Proof. reflexivity. Qed.

Example sorted_ex :
  Py.sorted_list (list_to_set ["10.0.0.3"; "10.0.0.2"; "10.0.0.3"; "10.0.0.10"])
  = ["10.0.0.10"; "10.0.0.2"; "10.0.0.3"].
Proof. vm_compute. reflexivity. Qed.

(** The coordinator seeds the file, then two workers register in either
    order. *)
Example end_to_end_ex :
  content_of (bind (manage_slaves coordinator None)
                (λ _, register_workers coordinator [[rsa_b]; [rsa_a]]) no_files).2
             (slaves_path "10.0.0.1")
  = "10.0.0.2" +:+ Py.nl +:+ "10.0.0.3" +:+ Py.nl.
Proof. vm_compute. reflexivity. Qed.

Example match_zone_ex : Py.match_zone "us-west-2a" = Some ("us-west-2", "a").
Proof. reflexivity. Qed.

Example match_zone_newline_ex :
  Py.match_zone ("ap-southeast-10b" +:+ Py.nl) = Some ("ap-southeast-10", "b").
Proof. reflexivity. Qed.

Example match_zone_no_hyphen_ex : Py.match_zone "uswest2a" = None.
Proof. reflexivity. Qed.

Example match_zone_leading_zero_ex : Py.match_zone "us-west-02a" = None.
Proof. reflexivity. Qed.

(** ** Strings, lines and sorted sets *)

Lemma app_cons c (s t : string) : String c s +:+ t = String c (s +:+ t).
Proof. reflexivity. Qed.
Lemma app_empty_l (t : string) : "" +:+ t = t.
Proof. reflexivity. Qed.

Lemma str_app_assoc (a b c : string) : (a +:+ b) +:+ c = a +:+ b +:+ c.
Proof. induction a as [|x a IH]; [done|]. by rewrite !app_cons, IH. Qed.

Lemma readlines_cons_ne c s : Py.readlines (String c s) ≠ [].
Proof. simpl. case_decide; [done|]. by destruct (Py.readlines s). Qed.

Lemma readlines_app_nl x rest :
  Py.readlines (x +:+ Py.nl +:+ rest) = Py.readlines (x +:+ Py.nl) ++ Py.readlines rest.
Proof.
  induction x as [|c x IH]; [done|].
  rewrite !app_cons. simpl. case_decide; [by rewrite IH|].
  rewrite IH.
  destruct (Py.readlines (x +:+ Py.nl)) eqn:E; [|done].
  destruct x; [done|]. rewrite app_cons in E. by apply readlines_cons_ne in E.
Qed.

Lemma readlines_line x : no_nl x → Py.readlines (x +:+ Py.nl) = [x +:+ Py.nl].
Proof.
  induction x as [|c x IH]; [done|]. intros [Hc Hx].
  rewrite app_cons. simpl. rewrite decide_False by done. by rewrite IH.
Qed.

Lemma join_trailing l : Py.join Py.nl (l ++ [""]) = terminated l.
Proof.
  induction l as [|x l IH]; [done|].
  simpl. rewrite <- IH. by destruct l.
Qed.

Lemma readlines_terminated l :
  Py.readlines (terminated l) = l ≫= (λ x, Py.readlines (x +:+ Py.nl)).
Proof.
  induction l as [|x l IH]; [done|].
  simpl. by rewrite readlines_app_nl, IH.
Qed.

Lemma rstrip_nl y : Py.rstrip (y +:+ Py.nl) = Py.rstrip y.
Proof.
  induction y as [|c y IH]; [done|].
  rewrite app_cons. simpl. by rewrite IH.
Qed.

Lemma lstrip_nl x :
  Py.lstrip (x +:+ Py.nl) = if decide (Py.lstrip x = "") then "" else Py.lstrip x +:+ Py.nl.
Proof.
  induction x as [|c x IH]; [done|].
  rewrite app_cons. simpl. destruct (Py.isspace c); [done|].
  by rewrite decide_False.
Qed.

Lemma strip_nl x : Py.strip (x +:+ Py.nl) = Py.strip x.
Proof.
  unfold Py.strip. rewrite lstrip_nl. case_decide as E; [by rewrite E|].
  apply rstrip_nl.
Qed.

Lemma rstrip_idem s : Py.rstrip (Py.rstrip s) = Py.rstrip s.
Proof.
  induction s as [|c s IH]; [done|].
  simpl. destruct (Py.rstrip s) as [|d r] eqn:E.
  - destruct (Py.isspace c) eqn:Ec; [done|]. simpl. by rewrite Ec.
  - simpl in *. by rewrite IH.
Qed.

Lemma lstrip_head s : Py.lstrip s = "" ∨ ∃ c t, Py.lstrip s = String c t ∧ Py.isspace c = false.
Proof.
  induction s as [|c s IH]; [by left|].
  simpl. destruct (Py.isspace c) eqn:E; [done|]. right; eauto.
Qed.

Lemma lstrip_rstrip_lstrip s : Py.lstrip (Py.rstrip (Py.lstrip s)) = Py.rstrip (Py.lstrip s).
Proof.
  destruct (lstrip_head s) as [->|(c & t & -> & Hc)]; [done|].
  simpl. destruct (Py.rstrip t); simpl; rewrite ?Hc; simpl; by rewrite ?Hc.
Qed.

Lemma strip_idem s : Py.strip (Py.strip s) = Py.strip s.
Proof. unfold Py.strip. by rewrite lstrip_rstrip_lstrip, rstrip_idem. Qed.

Lemma lstrip_no_nl s : no_nl s → no_nl (Py.lstrip s).
Proof.
  induction s as [|c s IH]; [done|]. intros [? ?]. simpl.
  destruct (Py.isspace c); [auto|done].
Qed.

Lemma rstrip_no_nl s : no_nl s → no_nl (Py.rstrip s).
Proof.
  induction s as [|c s IH]; [done|]. intros [? ?]. simpl.
  destruct (Py.rstrip s) eqn:E; [by destruct (Py.isspace c)|]. split; auto.
Qed.

Lemma strip_no_nl s : no_nl s → no_nl (Py.strip s).
Proof. intros. by apply rstrip_no_nl, lstrip_no_nl. Qed.

(** Every line that [readlines] returns is newline-free up to an optional
    final terminator. *)
Lemma readlines_lines c line :
  line ∈ Py.readlines c → ∃ body, no_nl body ∧ (line = body ∨ line = body +:+ Py.nl).
Proof.
  revert line. induction c as [|a c IH]; intros line; [by intros ?%elem_of_nil|].
  simpl. case_decide as Ha.
  - intros [->|?]%elem_of_cons; [|auto]. exists "". split; [done|by right].
  - destruct (Py.readlines c) as [|l ls] eqn:E.
    + intros ->%list_elem_of_singleton. exists (String a ""). split; [done|by left].
    + intros [->|?]%elem_of_cons.
      * destruct (IH l) as (body & ? & [->| ->]); [by left|..];
        exists (String a body); (split; [done|]); [by left|by right].
      * apply IH. by right.
Qed.

(** *** Sorted lists of sets *)

Lemma elem_of_sorted_list (S : gset string) x : x ∈ Py.sorted_list S ↔ x ∈ S.
Proof. unfold Py.sorted_list. by rewrite merge_sort_Permutation, elem_of_elements. Qed.

Lemma ascending_sorted_list (S : gset string) : ascending (Py.sorted_list S).
Proof.
  split.
  - apply (Sorted_merge_sort String.le).
  - unfold Py.sorted_list. rewrite merge_sort_Permutation. apply NoDup_elements.
Qed.

Lemma ascending_unique l1 l2 :
  ascending l1 → ascending l2 → (∀ x, x ∈ l1 ↔ x ∈ l2) → l1 = l2.
Proof.
  intros [S1 N1] [S2 N2] H.
  apply (Sorted_unique String.le); [done..|].
  by apply NoDup_Permutation.
Qed.

Lemma canonical_terminated S : canonical S = terminated (Py.sorted_list (S ∖ {[""]})).
Proof. apply join_trailing. Qed.

Lemma stripped_terminated l :
  Forall clean l → stripped_lines (terminated l) = l.
Proof.
  unfold stripped_lines. rewrite readlines_terminated.
  induction 1 as [|x l [Hs Hn] _ IH]; [done|].
  simpl. rewrite readlines_line by done. simpl.
  rewrite strip_nl, Hs. f_equal. apply IH.
Qed.

Lemma stripped_canonical (S : gset string) :
  (∀ x, x ∈ S → clean x) →
  list_to_set (stripped_lines (canonical S)) = S ∖ {[""]}.
Proof.
  intros HS. rewrite canonical_terminated, stripped_terminated.
  - apply set_eq. intros x. by rewrite elem_of_list_to_set, elem_of_sorted_list.
  - apply Forall_forall. intros x Hx. apply elem_of_sorted_list in Hx. apply elem_of_difference in Hx. apply HS, Hx.
Qed.

Lemma has_line_terminated l x : x ∈ l → no_nl x → has_line (terminated l) x.
Proof.
  intros Hx Hn. unfold has_line. rewrite readlines_terminated.
  apply list_elem_of_bind. exists x. split; [|done].
  rewrite readlines_line by done. by left.
Qed.

Lemma has_line_stripped content x :
  has_line content x → Py.strip x ∈ stripped_lines content.
Proof.
  intros H. unfold stripped_lines. rewrite <- strip_nl.
  by apply list_elem_of_fmap_2.
Qed.

Lemma stripped_lines_clean content x : x ∈ stripped_lines content → clean x.
Proof.
  intros (line & -> & (body & Hn & [->| ->])%readlines_lines)%list_elem_of_fmap.
  - split; [apply strip_idem|by apply strip_no_nl].
  - rewrite strip_nl. split; [apply strip_idem|by apply strip_no_nl].
Qed.

Lemma canonical_keeps (S : gset string) x :
  x ∈ S → x ≠ "" → clean x → x ∈ stripped_lines (canonical S).
Proof.
  intros Hx Hne [Hs Hn]. rewrite canonical_terminated, <- Hs.
  apply has_line_stripped, has_line_terminated; [|done].
  apply elem_of_sorted_list. set_solver.
Qed.

(** *** Sets whose items may be None *)

#[global] Instance item_le_trans : Transitive Py.item_le.
Proof. intros [a|] [b|] [c|]; simpl; try done. apply transitivity. Qed.

#[global] Instance item_le_antisymm : AntiSymm (=) Py.item_le.
Proof.
  intros [a|] [b|]; simpl; try done.
  intros H1 H2. f_equal. by apply (anti_symm String.le).
Qed.

#[global] Instance item_le_total : Total Py.item_le.
Proof. intros [a|] [b|]; simpl; auto. apply (total String.le). Qed.

Lemma elem_of_sorted_items (entries : gset (option string)) x :
  x ∈ Py.sorted_items entries ↔ x ∈ entries.
Proof. unfold Py.sorted_items. by rewrite merge_sort_Permutation, elem_of_elements. Qed.

(** A set of strings is sorted as the strings are. *)
Lemma sorted_items_strings (entries : gset (option string)) (S : gset string) :
  (∀ x, x ∈ entries ↔ ∃ s, x = Some s ∧ s ∈ S) →
  Py.sorted_items entries = Some <$> Py.sorted_list S.
Proof.
  intros H. apply (Sorted_unique Py.item_le).
  - apply (Sorted_merge_sort Py.item_le).
  - apply (Sorted_fmap _ String.le); [done|]. apply ascending_sorted_list.
  - apply NoDup_Permutation.
    + unfold Py.sorted_items. rewrite merge_sort_Permutation. apply NoDup_elements.
    + apply NoDup_fmap_2; [apply _|]. apply ascending_sorted_list.
    + intros x. rewrite elem_of_sorted_items, H, list_elem_of_fmap.
      setoid_rewrite elem_of_sorted_list. naive_solver.
Qed.

Lemma join_items_strings sep l : Py.join_items sep (Some <$> l) = Some (Py.join sep l).
Proof. unfold Py.join_items. by rewrite (mapM_fmap_Some Datatypes.id Some l). Qed.

Lemma join_items_none sep l : None ∈ l → Py.join_items sep l = None.
Proof.
  intros H. unfold Py.join_items. rewrite (proj2 (mapM_None Datatypes.id l)); [done|].
  apply Exists_exists. by exists None.
Qed.

Lemma items_of_strings (f g : string → string) (l1 l2 : list string) x :
  x ∈ (list_to_set (Some ∘ f <$> l1) ∪ list_to_set (Some ∘ g <$> l2) : gset (option string))
  ↔ ∃ s, x = Some s ∧ s ∈ (list_to_set (f <$> l1) ∪ list_to_set (g <$> l2) : gset string).
Proof.
  rewrite elem_of_union, !elem_of_list_to_set, !list_elem_of_fmap.
  setoid_rewrite elem_of_union. setoid_rewrite elem_of_list_to_set.
  setoid_rewrite list_elem_of_fmap. naive_solver.
Qed.

(** ** Runs of the file operations *)

Section Runs.
Variable self : SparkTools.

Lemma truncate_then_write path content w :
  bind (truncate path) (λ _, write path content) w
  = (inr (), World (<[path := content]> (files w)) (trace w) (spawned w)).
Proof.
  cbv [bind truncate write]. cbn [files trace spawned].
  rewrite lookup_insert_eq, insert_insert_eq. cbn [default]. by rewrite app_empty_l.
Qed.

Lemma write_sorted_items_run path entries (S : gset string) w :
  (∀ x, x ∈ entries ↔ ∃ s, x = Some s ∧ s ∈ S) →
  write_sorted_items path entries w
  = (inr (), World (<[path := canonical S]> (files w)) (trace w) (spawned w)).
Proof.
  intros H. unfold write_sorted_items.
  rewrite (sorted_items_strings _ (S ∖ {[""]})).
  - change [Some ""] with (Some <$> [""]). rewrite <- fmap_app, join_items_strings.
    apply truncate_then_write.
  - intros x. case_decide as E; rewrite ?elem_of_difference, ?elem_of_singleton, H;
      setoid_rewrite elem_of_difference; setoid_rewrite elem_of_singleton.
    + naive_solver.
    + split; [|naive_solver]. intros (s & -> & Hs). exists s. repeat split; [done|].
      intros ->. apply E, H. by exists "".
Qed.

Lemma write_sorted_items_none path entries w :
  None ∈ entries →
  write_sorted_items path entries w
  = (inl TypeError, World (<[path := ""]> (files w)) (trace w) (spawned w)).
Proof.
  intros H. unfold write_sorted_items. rewrite join_items_none; [done|].
  apply elem_of_app. left. apply elem_of_sorted_items.
  case_decide; [|done]. apply elem_of_difference. split; [done|].
  by rewrite elem_of_singleton.
Qed.

Lemma write_sorted_run path (S : gset string) w :
  write_sorted path S w
  = (inr (), World (<[path := canonical S]> (files w)) (trace w) (spawned w)).
Proof.
  unfold write_sorted, canonical, truncate_write. case_decide as H; [done|].
  replace (S ∖ {[""]}) with S; [done|].
  apply set_eq. intros x. rewrite elem_of_difference, elem_of_singleton.
  split; [|tauto]. intros Hx. split; [done|]. by intros ->.
Qed.

Lemma master_ip_frame :
  ∃ r evs, ∀ w, master_ip self w = (r, World (files w) (trace w ++ evs) (spawned w)).
Proof.
  unfold master_ip. case_decide.
  - eexists _, [_; _]. intros w. cbn. by rewrite <- app_assoc.
  - destruct (filter (λ i, id i = master_id self)
       (all_instances (ec2_reservations (ec2 self) (InstanceIds [master_id self]))))
      as [|i [|j l]] eqn:E; eexists _, _; intros w;
      unfold bind, get_all_reservations, log, emit, ret, raise; cbn; rewrite E;
      cbn; rewrite <- ?app_assoc; reflexivity.
Qed.

Lemma master_ip_run w v :
  (master_ip self w).1 = inr v →
  ∃ evs, ∀ w', master_ip self w' = (inr v, World (files w') (trace w' ++ evs) (spawned w')).
Proof.
  destruct master_ip_frame as (r & evs & H). rewrite H. simpl.
  intros ->. by exists evs.
Qed.

Lemma add_host_keys_run host_keys w :
  ∃ evs, add_host_keys self host_keys None w
  = (inr (),
     World (<[known_hosts_path self :=
               canonical (list_to_set (stripped_lines (content_of w (known_hosts_path self)))
                          ∪ list_to_set (host_key_line <$> host_keys))]> (files w))
           (trace w ++ evs) (spawned w)).
Proof.
  eexists. unfold add_host_keys.
  cbv [bind open_append readlines flock emit ret]. cbn [files trace spawned].
  rewrite write_sorted_run. cbn [files trace spawned].
  rewrite insert_insert_eq, lookup_insert_eq. reflexivity.
Qed.

Lemma manage_slaves_add_slaves w ip e es :
  (master_ip self w).1 = inr (Some ip) →
  ∃ evs, manage_slaves self (Some (e :: es)) w
  = add_host_keys self (e :: es) None
      (World (<[slaves_path ip :=
                 canonical (list_to_set (stripped_lines (content_of w (slaves_path ip)))
                            ∪ list_to_set (ip_of <$> e :: es))]> (files w))
             (trace w ++ evs) (spawned w)).
Proof.
  intros (evs & Hip)%master_ip_run. eexists.
  unfold manage_slaves.
  cbv [bind log emit]. rewrite Hip.
  cbv [bind str_add open_append readlines flock log emit ret]. cbn [files trace spawned].
  erewrite write_sorted_items_run by (intros x; apply items_of_strings).
  cbn [files trace spawned].
  rewrite insert_insert_eq, lookup_insert_eq, <- !app_assoc. reflexivity.
Qed.

End Runs.

(** ** Membership of the slaves file *)

Section Membership.
Variable self : SparkTools.

Lemma master_ip_indep w w' : (master_ip self w).1 = (master_ip self w').1.
Proof. destruct (master_ip_frame self) as (r & evs & H). by rewrite !H. Qed.

Lemma content_of_insert w path c tr n :
  content_of (World (<[path := c]> (files w)) tr n) path = c.
Proof. unfold content_of. simpl. by rewrite lookup_insert_eq. Qed.

Lemma content_of_insert_ne w path path' c tr n :
  path ≠ path' →
  content_of (World (<[path := c]> (files w)) tr n) path' = content_of w path'.
Proof. intros. unfold content_of. simpl. by rewrite lookup_insert_ne. Qed.

Lemma manage_slaves_add_run w ip e es :
  (master_ip self w).1 = inr (Some ip) →
  ∃ w', manage_slaves self (Some (e :: es)) w = (inr (), w') ∧
    ∃ keys,
      files w' = <[known_hosts_path self := canonical keys]>
                   (<[slaves_path ip := merged (content_of w (slaves_path ip)) (e :: es)]>
                      (files w)) ∧
      (known_hosts_path self = slaves_path ip →
       keys = list_to_set (stripped_lines (merged (content_of w (slaves_path ip)) (e :: es)))
              ∪ list_to_set (host_key_line <$> e :: es)) ∧
      (known_hosts_path self ≠ slaves_path ip →
       keys = list_to_set (stripped_lines (content_of w (known_hosts_path self)))
              ∪ list_to_set (host_key_line <$> e :: es)).
Proof.
  intros Hip. destruct (manage_slaves_add_slaves self w ip e es Hip) as (evs & ->).
  match goal with |- context [add_host_keys _ _ _ ?w1] =>
    destruct (add_host_keys_run self (e :: es) w1) as (evs' & ->) end.
  eexists. split; [reflexivity|]. eexists. split; [reflexivity|]. split.
  - intros ->. by rewrite content_of_insert.
  - intros Hne. by rewrite content_of_insert_ne.
Qed.

Lemma manage_slaves_add_keeps w ip e es x :
  (master_ip self w).1 = inr (Some ip) →
  ip_present x (content_of w (slaves_path ip)) →
  ∃ w', manage_slaves self (Some (e :: es)) w = (inr (), w') ∧
        ip_present x (content_of w' (slaves_path ip)).
Proof.
  intros Hip [Hne Hx].
  destruct (manage_slaves_add_run w ip e es Hip) as (w' & -> & keys & Hf & Heq & Hneq).
  exists w'. split; [done|]. split; [done|].
  assert (x ∈ stripped_lines (merged (content_of w (slaves_path ip)) (e :: es))) as Hm.
  { apply canonical_keeps; [|done|by eapply stripped_lines_clean].
    apply elem_of_union_l. by apply elem_of_list_to_set. }
  unfold content_of at 1. rewrite Hf.
  destruct (decide (known_hosts_path self = slaves_path ip)) as [E|E].
  - rewrite E, lookup_insert_eq. simpl. rewrite (Heq E).
    apply canonical_keeps; [|done|by eapply stripped_lines_clean].
    apply elem_of_union_l. by apply elem_of_list_to_set.
  - rewrite lookup_insert_ne, lookup_insert_eq by done. done.
Qed.

End Membership.

(** Claim C2.  Registration only adds IPs.  From any state of the slaves
    file, in particular the one that initialization leaves, a sequence of
    [manage_slaves] calls that each carry at least one entry succeeds, and
    every IP that was listed in the file before is still listed after:
    membership grows by union, nothing is replaced. *)
Theorem registration_keeps_ips (self : SparkTools) (w : world) (ip : string)
    (calls : list (list string)) (x : string) :
  (master_ip self w).1 = inr (Some ip) →
  Forall (λ to_add, to_add ≠ []) calls →
  ip_present x (content_of w (slaves_path ip)) →
  (register_workers self calls w).1 = inr () ∧
  ip_present x (content_of (register_workers self calls w).2 (slaves_path ip)).
Proof.
  intros Hip Hcalls. revert w Hip.
  induction Hcalls as [|[|e es] calls Hne _ IH]; intros w Hip Hx; [done..|].
  destruct (manage_slaves_add_keeps self w ip e es x Hip Hx) as (w' & Hrun & Hx').
  simpl. unfold bind. rewrite Hrun. apply IH; [|done].
  by rewrite (master_ip_indep self w' w).
Qed.

Section Merge.
Variable self : SparkTools.

Lemma canonical_ext (A B : gset string) :
  A ∖ {[""]} = B ∖ {[""]} → canonical A = canonical B.
Proof. unfold canonical. by intros ->. Qed.

Lemma register_workers_run calls : ∀ w ip,
  (master_ip self w).1 = inr (Some ip) →
  known_hosts_path self ≠ slaves_path ip →
  registrations calls →
  ∃ w', register_workers self calls w = (inr (), w') ∧
        content_of w' (slaves_path ip)
        = match calls with
          | [] => content_of w (slaves_path ip)
          | _ => canonical (list_to_set (stripped_lines (content_of w (slaves_path ip)))
                            ∪ list_to_set (ips_of calls))
          end.
Proof.
  induction calls as [|c calls IH]; intros w ip Hip Hpath Hcalls.
  { by exists w. }
  apply Forall_cons in Hcalls as [[Hne Hc] Hcalls].
  destruct c as [|e es]; [done|].
  destruct (manage_slaves_add_run self w ip e es Hip) as (w1 & Hrun & keys & Hf & _ & _).
  assert (content_of w1 (slaves_path ip)
          = merged (content_of w (slaves_path ip)) (e :: es)) as H1.
  { unfold content_of at 1. rewrite Hf, lookup_insert_ne, lookup_insert_eq by done. done. }
  destruct (IH w1 ip) as (w' & Hrest & Hw'); [|done..|].
  { by rewrite (master_ip_indep self w1 w). }
  exists w'. split.
  { simpl. unfold bind. by rewrite Hrun. }
  rewrite Hw', H1. destruct calls as [|c' calls'].
  { unfold merged, ips_of. simpl. by rewrite app_nil_r. }
  unfold merged. rewrite stripped_canonical.
  - apply canonical_ext. unfold ips_of. rewrite (concat_cons (e :: es)), fmap_app.
    apply set_eq. intros x.
    rewrite !elem_of_difference, !elem_of_union, !elem_of_difference, !elem_of_union,
      !elem_of_list_to_set, elem_of_app. tauto.
  - intros x [Hx|Hx]%elem_of_union.
    + apply elem_of_list_to_set in Hx. by eapply stripped_lines_clean.
    + apply elem_of_list_to_set, list_elem_of_fmap in Hx as (y & -> & Hy).
      by apply (proj1 (Forall_forall _ _) Hc).
Qed.

End Merge.

(** *** The IP portion of an entry *)

Lemma split_prefix sep ip rest :
  free_of sep ip → Py.split sep (ip +:+ String sep rest) = ip :: Py.split sep rest.
Proof.
  induction ip as [|c ip IH]; intros Hf.
  - rewrite app_empty_l. simpl. by rewrite decide_True.
  - destruct Hf as [Hc Hf]. rewrite app_cons. simpl.
    rewrite decide_False by done. by rewrite IH.
Qed.

Lemma split_free sep s : free_of sep s → Py.split sep s = [s].
Proof.
  induction s as [|c s IH]; [done|]. intros [Hc Hs]. simpl.
  rewrite decide_False by done. by rewrite IH.
Qed.

Lemma ip_of_prefix ip rest : free_of ":" ip → ip_of (ip +:+ ":" +:+ rest) = ip.
Proof.
  intros Hf. unfold ip_of. change (":" +:+ rest) with (String ":" rest).
  by rewrite split_prefix.
Qed.

(** What the code takes from an entry is its IP portion, and nothing else
    is. *)
Lemma ip_portion_unique e ip : ip_portion e ip → ip_of e = ip.
Proof.
  intros [Hf [->|(rest & ->)]].
  - unfold ip_of. by rewrite split_free.
  - by apply ip_of_prefix.
Qed.

Lemma ip_portion_ip_of e : ip_portion e (ip_of e).
Proof.
  unfold ip_of. induction e as [|c e IH].
  { split; [done|by left]. }
  simpl. case_decide as Hc.
  - subst c. split; [done|]. right. by exists e.
  - destruct (Py.split ":" e) as [|h t].
    { split; [done|]. destruct IH as [_ [->|(rest & ->)]]; [by left|].
      right. by exists rest. }
    destruct IH as [Hf [->|(rest & ->)]].
    + split; [done|by left].
    + split; [done|]. right. exists rest. by rewrite app_cons.
Qed.

Lemma elem_of_concat {A} (x : A) (ls : list (list A)) :
  x ∈ concat ls ↔ ∃ l, x ∈ l ∧ l ∈ ls.
Proof.
  induction ls as [|l ls IH]; simpl.
  - split; [by intros ?%elem_of_nil|]. by intros (l & _ & ?%elem_of_nil).
  - rewrite elem_of_app, IH. split.
    + intros [Hx|(l' & Hx & Hl)]; [exists l|exists l']; split; try done; by constructor.
    + intros (l' & Hx & [->|Hl]%elem_of_cons); [by left|]. right. by exists l'.
Qed.

Lemma registered_ips_of calls x : registered calls x ↔ x ∈ ips_of calls.
Proof.
  unfold registered, ips_of. rewrite list_elem_of_fmap.
  setoid_rewrite elem_of_concat. split.
  - intros (to_add & e & Hc & He & <-%ip_portion_unique). exists e.
    split; [done|]. by exists to_add.
  - intros (e & -> & to_add & He & Hc). exists to_add, e.
    split; [done|]. split; [done|]. apply ip_portion_ip_of.
Qed.

Lemma worker_entries_registrations calls : worker_entries calls → registrations calls.
Proof.
  intros H. eapply Forall_impl; [exact H|]. intros to_add [Hne Hc]. split; [done|].
  eapply Forall_impl; [exact Hc|]. intros e He. apply He, ip_portion_ip_of.
Qed.

(** Claim C1.  Take a non-empty sequence of registration calls, each with
    at least one entry in the format that [manage_slaves] documents
    (IP:ALGO:KEY without spaces, so that the IP portion, the text before
    the first colon, is a clean token), on a node whose known-hosts file is
    not the slaves file.  The calls succeed and the slaves file ends in
    canonical form: the strictly ascending list of the non-empty strings
    that are a stripped line of the previous content or the IP portion of
    an entry of one of the calls, joined by newlines with one trailing empty
    entry.  Any other such sequence with the same IP portions, in another
    order, with other duplicates or grouped differently, leaves the same
    content: the merge is commutative and idempotent. *)
Theorem membership_merge_canonical (self : SparkTools) (w : world) (ip : string)
    (calls : list (list string)) :
  (master_ip self w).1 = inr (Some ip) →
  known_hosts_path self ≠ slaves_path ip →
  calls ≠ [] →
  worker_entries calls →
  let before := content_of w (slaves_path ip) in
  let after := content_of (register_workers self calls w).2 (slaves_path ip) in
  (register_workers self calls w).1 = inr () ∧
  (∃ l, after = Py.join Py.nl (l ++ [""]) ∧ ascending l ∧
        ∀ x, x ∈ l ↔ x ≠ "" ∧ (x ∈ stripped_lines before ∨ registered calls x)) ∧
  (∀ calls', calls' ≠ [] → worker_entries calls' →
     (∀ x, registered calls' x ↔ registered calls x) →
     content_of (register_workers self calls' w).2 (slaves_path ip) = after).
Proof.
  intros Hip Hpath Hne Hcalls%worker_entries_registrations before after.
  destruct (register_workers_run self calls w ip Hip Hpath Hcalls) as (w' & Hrun & Hw').
  subst after. rewrite Hrun. cbn [fst snd]. rewrite Hw'. destruct calls as [|c calls]; [done|].
  split; [done|]. split.
  - eexists. split; [reflexivity|]. split; [apply ascending_sorted_list|].
    intros x. rewrite elem_of_sorted_list, elem_of_difference, elem_of_union,
      !elem_of_list_to_set, elem_of_singleton, registered_ips_of. tauto.
  - intros calls' Hne' Hcalls'%worker_entries_registrations Hsame.
    destruct (register_workers_run self calls' w ip Hip Hpath Hcalls') as (w2 & Hrun' & Hw2).
    rewrite Hrun'. cbn [snd]. rewrite Hw2.
    destruct calls' as [|c' calls']; [done|].
    apply canonical_ext. f_equal. f_equal. apply set_eq. intros x.
    by rewrite !elem_of_list_to_set, <- !registered_ips_of.
Qed.

(** ** Known hosts *)

Lemma split_cons sep s : ∃ h t, Py.split sep s = h :: t.
Proof.
  destruct s as [|c s]; simpl; [by eexists _, _|].
  case_decide; [by eexists _, _|]. destruct (Py.split sep s); by eexists _, _.
Qed.

Lemma join_cons_cons sep x y l :
  Py.join sep (x :: y :: l) = x +:+ sep +:+ Py.join sep (y :: l).
Proof. done. Qed.

(** Splitting at one byte and joining with another replaces the byte. *)
Lemma join_split a b s :
  Py.join (String b "") (Py.split a s) = translate a b s.
Proof.
  induction s as [|c s IH]; [done|].
  simpl. destruct (split_cons a s) as (h & t & E). rewrite E in *.
  case_decide.
  - rewrite join_cons_cons, IH. done.
  - rewrite <- IH. destruct t; [done|]. by rewrite !join_cons_cons.
Qed.

Lemma host_key_line_translate e : host_key_line e = translate ":" " " e.
Proof. apply join_split. Qed.

Lemma translate_no_nl a b s : b ≠ Py.newline → no_nl s → no_nl (translate a b s).
Proof.
  intros Hb. induction s as [|c s IH]; [done|]. intros [? ?]. simpl.
  split; [by case_decide|auto].
Qed.

Lemma translate_app a b s t : translate a b (s +:+ t) = translate a b s +:+ translate a b t.
Proof. induction s as [|c s IH]; [done|]. rewrite app_cons. simpl. by rewrite IH. Qed.

Lemma translate_empty a b s : translate a b s = "" ↔ s = "".
Proof. by destruct s. Qed.

(** Claim C5, as amended.  An entry [e] registered through
    [manage_slaves] puts into the known-hosts file the line that is [e]
    with every colon replaced by a space; its first token is the IP portion
    of the entry, not an alias.  The file is the strictly ascending list of
    its previous stripped lines and the lines of the entries, without empty
    strings and without duplicates, each followed by a newline.  The entry
    is taken to be non-empty and free of newlines, and the known-hosts file
    not to be the slaves file. *)
Theorem known_hosts_gains_entry_line (self : SparkTools) (w : world) (ip : string)
    (to_add : list string) (e : string) :
  (master_ip self w).1 = inr (Some ip) →
  known_hosts_path self ≠ slaves_path ip →
  e ∈ to_add → e ≠ "" → no_nl e →
  let before := content_of w (known_hosts_path self) in
  let after := content_of (manage_slaves self (Some to_add) w).2 (known_hosts_path self) in
  (manage_slaves self (Some to_add) w).1 = inr () ∧
  host_key_line e = translate ":" " " e ∧
  has_line after (host_key_line e) ∧
  ∃ l, after = Py.join Py.nl (l ++ [""]) ∧ ascending l ∧
       ∀ x, x ∈ l ↔ x ≠ "" ∧ (x ∈ stripped_lines before ∨ x ∈ host_key_line <$> to_add).
Proof.
  intros Hip Hpath He Hne Hnl before after.
  destruct to_add as [|e0 es]; [by apply elem_of_nil in He|].
  destruct (manage_slaves_add_run self w ip e0 es Hip) as (w' & Hrun & keys & Hf & _ & Hk).
  specialize (Hk Hpath). subst after. rewrite Hrun. cbn [fst snd].
  unfold content_of at 1 2. rewrite Hf, lookup_insert_eq. cbn [default].
  assert (∀ x, x ∈ Py.sorted_list (keys ∖ {[""]}) ↔
               x ≠ "" ∧ (x ∈ stripped_lines before ∨ x ∈ host_key_line <$> e0 :: es)) as Hl.
  { intros x. rewrite elem_of_sorted_list, elem_of_difference, Hk, elem_of_union,
      !elem_of_list_to_set, elem_of_singleton. unfold before. tauto. }
  split; [done|]. split; [apply host_key_line_translate|]. split.
  - rewrite canonical_terminated. apply has_line_terminated.
    + apply Hl. split.
      * rewrite host_key_line_translate. by intros ?%translate_empty.
      * right. by apply list_elem_of_fmap_2.
    + rewrite host_key_line_translate. by apply translate_no_nl.
  - eexists. split; [reflexivity|]. split; [apply ascending_sorted_list|done].
Qed.

(** ** The master IP *)

(** Claim C7.  On a node whose master ID is its own instance ID,
    [master_ip] returns the node's own IP, and the events it emits contain
    no directory query: neither [get_all_reservations] nor [get_all_tags]
    is called. *)
Theorem master_ip_of_coordinator (self : SparkTools) (w : world) :
  master_id self = instance_id self →
  ∃ evs, master_ip self w = (inr (Some (node_ip self)), World (files w) (trace w ++ evs) (spawned w)) ∧
         Forall (λ e, ¬ is_directory_query e) evs.
Proof.
  intros H. exists [Log INFO "I am the master"; Log INFO "Master IP is '%s'"].
  split.
  - unfold master_ip. rewrite decide_True by done.
    cbv [bind log emit ret files trace spawned]. by rewrite <- app_assoc.
  - repeat (constructor; [by cbv; intros []|]). constructor.
Qed.

(** Claim C4.  On a node that is not the coordinator, [master_ip] asks the
    directory for the master's instance ID and keeps the instances with
    exactly that ID.  With exactly one such instance it returns that
    instance's private IP (None when boto reports none).  With none, [next] raises [StopIteration]; with
    more than one, the assertion raises: in both cases the call fails with
    the error the spec calls AmbiguousTopology. *)
Theorem master_ip_of_worker (self : SparkTools) (w : world) :
  master_id self ≠ instance_id self →
  let asked := [Log INFO "I am a slave";
                GetAllReservations (InstanceIds [master_id self])] in
  (∀ master_instance, master_matches self = [master_instance] →
     master_ip self w
     = (inr (private_ip_address master_instance),
        World (files w) (trace w ++ asked ++ [Log INFO "Master IP is '%s'"]) (spawned w))) ∧
  (master_matches self = [] →
     master_ip self w
     = (inl StopIteration, World (files w) (trace w ++ asked) (spawned w))) ∧
  ((1 < length (master_matches self))%nat →
     master_ip self w
     = (inl AssertionError, World (files w) (trace w ++ asked) (spawned w))) ∧
  (length (master_matches self) ≠ 1%nat →
     ∃ e, AmbiguousTopology e ∧ (master_ip self w).1 = inl e).
Proof.
  intros H asked.
  assert (master_ip self w =
    match master_matches self with
    | [] => (inl StopIteration, World (files w) (trace w ++ asked) (spawned w))
    | [i] => (inr (private_ip_address i),
              World (files w) (trace w ++ asked ++ [Log INFO "Master IP is '%s'"]) (spawned w))
    | _ => (inl AssertionError, World (files w) (trace w ++ asked) (spawned w))
    end) as ->.
  { unfold master_ip. rewrite decide_False by done.
    cbv [bind get_all_reservations log emit ret raise files trace spawned].
    fold (master_matches self).
    by destruct (master_matches self) as [|i [|j l]]; rewrite <- ?app_assoc. }
  destruct (master_matches self) as [|i [|j l]]; simpl; repeat split;
    try done; try lia.
  - intros _. exists StopIteration. split; [by left|done].
  - by intros ? [= ->].
  - intros _. exists AssertionError. split; [by right|done].
Qed.

(** ** Registration with the master *)

Section Registration.
Variable self : SparkTools.

Lemma register_attempts_step t tries w pub :
  files w !! host_key_path = Some pub →
  register_attempts self (t :: tries) w
  = let status_code := exit_status self (spawned w) in
    let w1 := World (files w)
                    (trace w ++ [Call (registration_command self pub) status_code])
                    (S (spawned w)) in
    if decide (0 = status_code) then (inr (), w1)
    else register_attempts self tries
           (World (files w)
                  (trace w ++ [Call (registration_command self pub) status_code;
                               Log WARN "ssh returned %i, retrying in 5s"; Sleep 5])
                  (S (spawned w))).
Proof.
  intros Hpub. cbn [register_attempts].
  cbv [bind get_host_key open_read call ret]. fold host_key_path. rewrite Hpub.
  cbv [files trace spawned]. fold (registration_command self pub).
  cbv zeta. case_decide; [done|].
  cbv [log sleep emit files trace spawned]. by rewrite <- !app_assoc.
Qed.

Lemma register_attempts_exhausted tries : ∀ w pub,
  files w !! host_key_path = Some pub →
  (∀ j, (j < length tries)%nat → exit_status self (spawned w + j) ≠ 0) →
  register_attempts self tries w
  = (inl RegistrationFailed,
     World (files w)
           (trace w ++ failed_attempts self pub (spawned w) (length tries))
           (spawned w + length tries)).
Proof.
  induction tries as [|t tries IH]; intros w pub Hpub Hfail.
  { simpl. unfold raise. destruct w. simpl. by rewrite app_nil_r, Nat.add_0_r. }
  rewrite (register_attempts_step _ _ _ pub) by done. cbv zeta.
  rewrite decide_False.
  2:{ intros E. apply (Hfail 0%nat); [simpl; lia|]. by rewrite Nat.add_0_r. }
  rewrite (IH _ pub); cbn [files trace spawned length failed_attempts].
  - by rewrite <- app_assoc, Nat.add_succ_r.
  - done.
  - intros j Hj. rewrite Nat.add_succ_l, <- Nat.add_succ_r. apply Hfail. simpl. lia.
Qed.

Lemma register_attempts_succeeds tries : ∀ w pub k,
  files w !! host_key_path = Some pub →
  (k < length tries)%nat →
  (∀ j, (j < k)%nat → exit_status self (spawned w + j) ≠ 0) →
  exit_status self (spawned w + k) = 0 →
  register_attempts self tries w
  = (inr (),
     World (files w)
           (trace w ++ failed_attempts self pub (spawned w) k
                    ++ [Call (registration_command self pub) 0])
           (spawned w + k + 1)).
Proof.
  induction tries as [|t tries IH]; intros w pub k Hpub Hk Hfail Hok.
  { simpl in Hk. lia. }
  rewrite (register_attempts_step _ _ _ pub) by done. cbv zeta.
  destruct k as [|k].
  - rewrite Nat.add_0_r in Hok. rewrite Hok, decide_True by done.
    simpl. by rewrite Nat.add_0_r, Nat.add_1_r.
  - rewrite decide_False.
    2:{ intros E. apply (Hfail 0%nat); [lia|]. by rewrite Nat.add_0_r. }
    rewrite (IH _ pub k); cbn [files trace spawned length failed_attempts].
    + rewrite <- !app_assoc. do 2 f_equal. lia.
    + done.
    + simpl in Hk. lia.
    + intros j Hj. rewrite Nat.add_succ_l, <- Nat.add_succ_r. apply Hfail. lia.
    + by rewrite Nat.add_succ_l, <- Nat.add_succ_r.
Qed.

Lemma register_attempts_bounded tries : ∀ w,
  (spawned (register_attempts self tries w).2 ≤ spawned w + length tries)%nat.
Proof.
  induction tries as [|t tries IH]; intros w; [simpl; lia|].
  destruct (files w !! host_key_path) as [pub|] eqn:Hpub.
  - rewrite (register_attempts_step _ _ _ pub) by done. cbv zeta.
    case_decide; [simpl; lia|]. etrans; [apply IH|]. simpl. lia.
  - cbn [register_attempts]. cbv [bind get_host_key open_read]. fold host_key_path.
    rewrite Hpub. simpl. lia.
Qed.

End Registration.

(** Claim C3.  With the host's public key file in place,
    [register_with_master] runs the remote command at most five times.  If
    attempt [k] (counted from 0, [k < 5]) is the first to exit with 0, the
    call returns normally right after it: the trace holds the [k] failed
    attempts, each followed by a warning and a five-second sleep, then the
    successful attempt and nothing more.  If all five attempts exit with a
    non-zero status, the trace holds exactly these five attempts and the
    call raises the registration error once. *)
Theorem registration_retries (self : SparkTools) (w : world) (pub : string) :
  files w !! host_key_path = Some pub →
  let started := trace w ++ [Log INFO "Registering with master"] in
  let first := spawned w in
  (∀ k, (k < 5)%nat →
     (∀ j, (j < k)%nat → exit_status self (first + j) ≠ 0) →
     exit_status self (first + k) = 0 →
     register_with_master self w
     = (inr (),
        World (files w)
              (started ++ failed_attempts self pub first k
                       ++ [Call (registration_command self pub) 0])
              (first + k + 1))) ∧
  ((∀ j, (j < 5)%nat → exit_status self (first + j) ≠ 0) →
     register_with_master self w
     = (inl RegistrationFailed,
        World (files w) (started ++ failed_attempts self pub first 5) (first + 5))) ∧
  (spawned (register_with_master self w).2 ≤ first + 5)%nat.
Proof.
  intros Hpub started first. unfold register_with_master.
  cbv [bind log emit]. repeat split.
  - intros k Hk Hfail Hok.
    by rewrite (register_attempts_succeeds self _ _ pub k).
  - intros Hfail. by rewrite (register_attempts_exhausted self _ _ pub).
  - apply (register_attempts_bounded self (seq 0 5)).
Qed.

(** ** Initialization and the master host key *)

Section Initialization.
Variable self : SparkTools.

Lemma elem_of_enumeration x :
  x ∈ enumeration self ↔ ∃ i, listed_worker self i ∧ private_ip_address i = x.
Proof.
  unfold enumeration, listed_worker, all_instances.
  rewrite list_elem_of_fmap. setoid_rewrite list_elem_of_filter.
  setoid_rewrite list_elem_of_bind. split.
  - intros (i & -> & Hid & r & Hi & Hr). exists i. split; [|done]. by exists r.
  - intros (i & (r & Hr & Hi & Hid) & <-). exists i. split; [done|].
    split; [done|]. by exists r.
Qed.

Lemma addressed_no_none : all_addressed self → None ∉ enumeration self.
Proof. intros Hall (i & Hi & Hip)%elem_of_enumeration. by apply (Hall i). Qed.

(** The set of the enumerated IPs. *)
Lemma enumerated_set :
  None ∉ enumeration self →
  ∃ S : gset string,
    (∀ s, s ∈ S ↔ enumerated self s) ∧
    (∀ x, x ∈ (list_to_set (enumeration self) : gset (option string))
          ↔ ∃ s, x = Some s ∧ s ∈ S).
Proof.
  intros Hnone. exists (list_to_set (omap Datatypes.id (enumeration self))).
  assert (∀ s, s ∈ (list_to_set (omap Datatypes.id (enumeration self)) : gset string)
               ↔ Some s ∈ enumeration self) as Hs.
  { intros s. rewrite elem_of_list_to_set, list_elem_of_omap. split.
    - by intros ([x|] & Hx & [= ->]).
    - intros Hx. by exists (Some s). }
  split.
  - intros s. rewrite Hs, elem_of_enumeration. done.
  - intros [s|]; rewrite elem_of_list_to_set.
    + rewrite <- Hs. split; [by exists s|]. by intros (s' & [= <-] & Hs').
    + split; [done|]. by intros (s & ? & _).
Qed.

Lemma manage_slaves_init_run w ip (S : gset string) :
  (master_ip self w).1 = inr (Some ip) →
  (∀ x, x ∈ (list_to_set (enumeration self) : gset (option string))
        ↔ ∃ s, x = Some s ∧ s ∈ S) →
  ∃ evs, manage_slaves self None w
  = (inr (),
     World (<[slaves_path ip := canonical S]> (files w)) (trace w ++ evs) (spawned w)).
Proof.
  intros (evs & Hip)%master_ip_run HS. eexists.
  unfold manage_slaves.
  cbv [bind log emit]. rewrite Hip.
  cbv [bind str_add open_append flock log emit ret get_all_reservations].
  cbn [files trace spawned].
  fold (enumeration self). rewrite (write_sorted_items_run _ _ S) by done.
  cbn [files trace spawned].
  rewrite insert_insert_eq, <- !app_assoc. reflexivity.
Qed.

Lemma manage_slaves_init_fails w ip :
  (master_ip self w).1 = inr (Some ip) →
  None ∈ enumeration self →
  ∃ evs, manage_slaves self None w
  = (inl TypeError,
     World (<[slaves_path ip := ""]> (files w)) (trace w ++ evs) (spawned w)).
Proof.
  intros (evs & Hip)%master_ip_run Hnone. eexists.
  unfold manage_slaves.
  cbv [bind log emit]. rewrite Hip.
  cbv [bind str_add open_append flock log emit ret get_all_reservations].
  cbn [files trace spawned].
  fold (enumeration self). rewrite write_sorted_items_none by by apply elem_of_list_to_set.
  cbn [files trace spawned].
  rewrite insert_insert_eq, <- !app_assoc. reflexivity.
Qed.

(** Initialization writes the enumeration, or fails on a worker without a
    private IP after it has emptied the file. *)
Lemma manage_slaves_init_cases w ip :
  (master_ip self w).1 = inr (Some ip) →
  (all_addressed self ∧
   ∃ (S : gset string) evs,
     (∀ s, s ∈ S ↔ enumerated self s) ∧
     manage_slaves self None w
     = (inr (),
        World (<[slaves_path ip := canonical S]> (files w)) (trace w ++ evs) (spawned w)))
  ∨ (¬ all_addressed self ∧
     ∃ evs, manage_slaves self None w
     = (inl TypeError,
        World (<[slaves_path ip := ""]> (files w)) (trace w ++ evs) (spawned w))).
Proof.
  intros Hip. destruct (decide (None ∈ enumeration self)) as [Hnone|Hnone].
  - right. split; [|by apply manage_slaves_init_fails].
    intros Hall. by apply addressed_no_none in Hall.
  - left. destruct (enumerated_set Hnone) as (S & HS & Hitems).
    destruct (manage_slaves_init_run w ip S Hip Hitems) as (evs & Hrun).
    split; [|by exists S, evs].
    intros i Hi Hip'. apply Hnone, elem_of_enumeration. by exists i.
Qed.

End Initialization.


(** Claim C8, as amended.  When the master has no [ssh_host_key] tag, or
    the tag's value is the empty string, [get_master_host_key] logs a
    warning and returns normally without touching any file.  When the tag
    has a non-empty value, the call returns normally and merges the line
    made of the alias [spark-master], a space, and the value with its colons
    replaced by spaces into the known-hosts file, which stays strictly
    ascending; no other file changes. *)
Theorem master_host_key_merge (self : SparkTools) (w : world) :
  let tags := ec2_tags (ec2 self) (master_id self) "ssh_host_key" in
  let asked := [Log INFO "Getting master's host key";
                GetAllTags (master_id self) "ssh_host_key"] in
  let before := content_of w (known_hosts_path self) in
  ((tags = [] ∨ ∃ t ts, tags = t :: ts ∧ value t = "") →
     get_master_host_key self w
     = (inr (),
        World (files w)
              (trace w ++ asked ++ [Log WARN "Could not get master's host key"])
              (spawned w))) ∧
  (∀ t ts, tags = t :: ts → value t ≠ "" →
     let line := "spark-master " +:+ translate ":" " " (value t) in
     ∃ w', get_master_host_key self w = (inr (), w') ∧
       let after := content_of w' (known_hosts_path self) in
       (∀ path, path ≠ known_hosts_path self → files w' !! path = files w !! path) ∧
       (∃ l, after = Py.join Py.nl (l ++ [""]) ∧ ascending l ∧
             ∀ x, x ∈ l ↔ x ≠ "" ∧ (x ∈ stripped_lines before ∨ x = line)) ∧
       (no_nl (value t) → has_line after line)).
Proof.
  intros tags asked before. split.
  - intros Habsent. unfold get_master_host_key.
    cbv [bind log emit get_instance_tag get_all_tags ret]. cbn [files trace spawned].
    fold tags.
    destruct Habsent as [->|(t & ts & -> & ->)]; cbn [files trace spawned];
      by rewrite <- !app_assoc.
  - intros t ts Htags Hval line.
    assert (host_key_line ("spark-master:" +:+ value t) = line) as Hline.
    { by rewrite host_key_line_translate, translate_app. }
    unfold get_master_host_key.
    cbv [bind log emit get_instance_tag get_all_tags ret]. cbn [files trace spawned].
    fold tags. rewrite Htags. destruct (value t) as [|c key] eqn:Ev; [done|].
    match goal with |- context [add_host_keys _ ?ks _ ?w1] =>
      destruct (add_host_keys_run self ks w1) as (evs & ->) end.
    eexists. split; [reflexivity|]. cbv zeta.
    rewrite content_of_insert.
    assert (∀ x, x ∈ Py.sorted_list
              ((list_to_set (stripped_lines before)
                ∪ list_to_set (host_key_line <$> ["spark-master:" +:+ String c key]))
               ∖ {[""]}) ↔
            x ≠ "" ∧ (x ∈ stripped_lines before ∨ x = line)) as Hl.
    { intros x. rewrite elem_of_sorted_list, elem_of_difference, elem_of_union,
        !elem_of_list_to_set, elem_of_singleton. simpl.
      rewrite list_elem_of_singleton, Hline. tauto. }
    split; [|split].
    + intros path Hne. simpl. by rewrite lookup_insert_ne.
    + eexists. split; [reflexivity|]. split; [apply ascending_sorted_list|done].
    + intros Hnl. rewrite canonical_terminated. apply has_line_terminated.
      * apply Hl. split; [done|by right].
      * subst line. rewrite <- (translate_app ":" " " "spark-master:").
        apply translate_no_nl; [done|]. done.
Qed.

(** ** Patching /etc/hosts *)

Lemma startswith_spec p s : Py.startswith p s ↔ ∃ post, s = p +:+ post.
Proof.
  revert s. induction p as [|a p IH]; intros s.
  { simpl. split; [by exists s|done]. }
  destruct s as [|b s]; simpl.
  { split; [done|]. by intros (post & ?). }
  case_decide as E.
  - subst. rewrite IH. split; intros (post & H); exists post.
    + by rewrite app_cons, H.
    + rewrite app_cons in H. by injection H.
  - split; [done|]. intros (post & H). rewrite app_cons in H. by injection H.
Qed.

Lemma contains_spec needle hay : Py.contains needle hay ↔ substring needle hay.
Proof.
  unfold substring. induction hay as [|c hay IH].
  - simpl. rewrite orb_false_r, startswith_spec. split.
    + intros (post & H). by exists "", post.
    + intros (pre & post & H). destruct pre; [by exists post|done].
  - cbn [Py.contains]. rewrite orb_True, startswith_spec, IH. split.
    + intros [(post & H)|(pre & post & H)].
      * by exists "", post.
      * exists (String c pre), post. by rewrite app_cons, H.
    + intros (pre & post & H). destruct pre as [|d pre].
      * left. by exists post.
      * right. exists pre, post. rewrite app_cons in H. by injection H.
Qed.

Lemma mentions_contains aliases line :
  mentions aliases line ↔ existsb (λ host, Py.contains host line) aliases.
Proof.
  rewrite existb_True, Exists_exists. unfold mentions.
  by setoid_rewrite contains_spec.
Qed.

#[global] Instance mentions_dec aliases line : Decision (mentions aliases line).
Proof.
  refine (cast_if (decide (existsb (λ host, Py.contains host line) aliases)));
    by rewrite mentions_contains.
Defined.

Lemma append_fresh_entries hosts : ∀ lines,
  foldl (λ lines '(host, ip),
           match ip with
           | Some (String _ _ as ip) => lines ++ [ip +:+ " " +:+ host +:+ Py.nl]
           | _ => lines
           end) lines hosts
  = lines ++ fresh_entries hosts.
Proof.
  induction hosts as [|[host [[|c ip]|]] hosts IH]; intros lines; simpl.
  - by rewrite app_nil_r.
  - apply IH.
  - by rewrite IH, <- app_assoc.
  - apply IH.
Qed.

(** Writing back the lines that were read gives the file back: a patch
    that drops no line and adds none leaves it as it was. *)
Lemma writelines_readlines content : Py.writelines (Py.readlines content) = content.
Proof.
  induction content as [|c s IH]; [done|].
  simpl. case_decide as E.
  - subst. simpl. by rewrite IH.
  - destruct (Py.readlines s) as [|l ls]; simpl in *; by rewrite <- IH.
Qed.

(** *** Lines of a text *)

Lemma str_app_empty_r (s : string) : s +:+ "" = s.
Proof. induction s as [|c s IH]; [done|]. by rewrite app_cons, IH. Qed.

Lemma writelines_cons l ls : Py.writelines (l :: ls) = l +:+ Py.writelines ls.
Proof. done. Qed.

Lemma writelines_app ls1 ls2 :
  Py.writelines (ls1 ++ ls2) = Py.writelines ls1 +:+ Py.writelines ls2.
Proof.
  induction ls1 as [|l ls1 IH]; [done|].
  change ((l :: ls1) ++ ls2) with (l :: (ls1 ++ ls2)).
  rewrite !writelines_cons, IH. by rewrite str_app_assoc.
Qed.

Lemma readlines_no_nl s : s ≠ "" → no_nl s → Py.readlines s = [s].
Proof.
  induction s as [|c s IH]; [done|]. intros _ [Hc Hs].
  simpl. rewrite decide_False by done.
  destruct s as [|d s]; [done|]. by rewrite IH.
Qed.

Lemma readlines_proper line rest :
  proper_line line → Py.readlines (line +:+ rest) = line :: Py.readlines rest.
Proof.
  intros (body & Hb & ->). rewrite str_app_assoc, readlines_app_nl.
  by rewrite readlines_line.
Qed.

Lemma readlines_writelines ls : lines_wf ls → Py.readlines (Py.writelines ls) = ls.
Proof.
  induction ls as [|l ls IH]; [done|].
  rewrite writelines_cons. destruct ls as [|l' ls].
  - intros [Hl|[Hne Hl]].
    + by rewrite readlines_proper.
    + change (Py.writelines []) with "". rewrite str_app_empty_r.
      by apply readlines_no_nl.
  - intros [Hl Hwf]. rewrite readlines_proper by done. by rewrite IH.
Qed.

Lemma proper_line_cons c line : c ≠ Py.newline → proper_line line → proper_line (String c line).
Proof. intros Hc (body & Hb & ->). by exists (String c body). Qed.

Lemma readlines_wf content : lines_wf (Py.readlines content).
Proof.
  induction content as [|c s IH]; [done|].
  simpl. case_decide as Hc.
  - destruct (Py.readlines s) as [|l ls] eqn:E.
    + left. by exists "".
    + split; [by exists ""|done].
  - destruct (Py.readlines s) as [|l ls] eqn:E.
    + right. done.
    + destruct ls as [|l' ls].
      * destruct IH as [Hl|[Hne Hl]]; [left; by apply proper_line_cons|right; done].
      * destruct IH as [Hl Hwf]. split; [by apply proper_line_cons|done].
Qed.

Lemma lines_wf_cons_inv l ls : lines_wf (l :: ls) → lines_wf ls.
Proof. destruct ls; [done|]. by intros [_ ?]. Qed.

Lemma lines_wf_filter (P : string → Prop) `{∀ x, Decision (P x)} ls :
  lines_wf ls → lines_wf (filter P ls).
Proof.
  induction ls as [|l ls IH]; [done|]. intros Hwf.
  specialize (IH (lines_wf_cons_inv _ _ Hwf)).
  rewrite filter_cons. case_decide; [|done].
  destruct (filter P ls) as [|k ks] eqn:E.
  - destruct ls as [|l' ls]; [done|]. left. apply Hwf.
  - destruct ls as [|l' ls]; [done|]. split; [apply Hwf|done].
Qed.

Lemma newline_terminated_cons c s :
  newline_terminated (String c s) → (s = "" ∧ c = Py.newline) ∨ (s ≠ "" ∧ newline_terminated s).
Proof.
  intros [?|(body & H)]; [done|]. destruct body as [|d body].
  - left. by injection H as -> ->.
  - right. rewrite app_cons in H. injection H as -> ->.
    split; [by destruct body|]. right. by exists body.
Qed.

Lemma readlines_terminated_text content :
  newline_terminated content → Forall proper_line (Py.readlines content).
Proof.
  induction content as [|c s IH]; [constructor|].
  intros [[-> ->]|[Hne Ht]]%newline_terminated_cons.
  - simpl. constructor; [by exists ""|constructor].
  - specialize (IH Ht). simpl. case_decide as Hc.
    + constructor; [by exists ""|done].
    + destruct (Py.readlines s) as [|l ls] eqn:E.
      * destruct s; [done|]. by apply readlines_cons_ne in E.
      * apply Forall_cons in IH as [Hl Hls].
        constructor; [by apply proper_line_cons|done].
Qed.

Lemma lines_wf_proper ls : Forall proper_line ls → lines_wf ls.
Proof.
  induction 1 as [|l ls Hl Hls IH]; [done|].
  destruct ls; [by left|by split].
Qed.

(** *** Runs of the patch *)

Lemma patch_etc_hosts_run w hosts content :
  files w !! etc_hosts = Some content →
  patch_etc_hosts hosts w
  = (inr (),
     World (<[etc_hosts :=
               Py.writelines (filter (λ line, ¬ mentions hosts.*1 line) (Py.readlines content)
                              ++ fresh_entries hosts)]> (files w))
           (trace w ++ [Log INFO "Patching /etc/host"])
           (spawned w)).
Proof.
  intros Hc. unfold patch_etc_hosts.
  cbv [bind log emit open_read truncate_write]. cbn [files trace spawned].
  fold etc_hosts. rewrite Hc. cbn [files trace spawned]. rewrite append_fresh_entries.
  do 5 f_equal. apply list_filter_iff. intros line.
  by rewrite mentions_contains.
Qed.

Lemma patch_etc_hosts_missing w hosts :
  files w !! etc_hosts = None →
  patch_etc_hosts hosts w
  = (inl (IOError etc_hosts),
     World (files w) (trace w ++ [Log INFO "Patching /etc/host"]) (spawned w)).
Proof.
  intros Hc. unfold patch_etc_hosts.
  cbv [bind log emit open_read truncate_write]. cbn [files trace spawned].
  fold etc_hosts. by rewrite Hc.
Qed.

Lemma no_nl_app s t : no_nl s → no_nl t → no_nl (s +:+ t).
Proof. induction s as [|c s IH]; [done|]. intros [? ?] ?. rewrite app_cons. split; auto. Qed.

Lemma fresh_entries_spec hosts e :
  e ∈ fresh_entries hosts ↔
  ∃ host ip, (host, Some ip) ∈ hosts ∧ ip ≠ "" ∧ e = ip +:+ " " +:+ host +:+ Py.nl.
Proof.
  unfold fresh_entries. rewrite list_elem_of_omap. split.
  - intros ([host [[|c ip]|]] & Hin & Heq); simplify_eq.
    exists host, (String c ip). done.
  - intros (host & [|c ip] & Hin & Hne & ->); [done|].
    by exists (host, Some (String c ip)).
Qed.

Lemma fresh_entries_proper hosts :
  single_line_entries hosts → Forall proper_line (fresh_entries hosts).
Proof.
  intros Hs. apply Forall_forall. intros e (host & ip & Hin & Hne & ->)%fresh_entries_spec.
  destruct (Hs host ip Hin Hne) as [Hip Hh].
  exists (ip +:+ " " +:+ host). split.
  - apply no_nl_app; [done|]. by apply (no_nl_app " ").
  - by rewrite !str_app_assoc.
Qed.

Lemma fresh_entries_mention hosts aliases e :
  (∀ h, h ∈ hosts.*1 → h ∈ aliases) →
  e ∈ fresh_entries hosts → mentions aliases e.
Proof.
  intros Hsub (host & ip & Hin & Hne & ->)%fresh_entries_spec.
  exists host. split.
  - apply Hsub. apply list_elem_of_fmap. by exists (host, Some ip).
  - exists (ip +:+ " "), Py.nl. by rewrite !str_app_assoc.
Qed.

Lemma mentions_app_r aliases pre e : mentions aliases e → mentions aliases (pre +:+ e).
Proof.
  intros (host & Hin & a & b & ->). exists host. split; [done|].
  exists (pre +:+ a), b. by rewrite !str_app_assoc.
Qed.

Lemma filter_all_out {A} (P : A → Prop) `{∀ x, Decision (P x)} (l : list A) :
  (∀ x, x ∈ l → ¬ P x) → filter P l = [].
Proof.
  induction l as [|x l IH]; [done|]. intros Hl.
  rewrite filter_cons, decide_False by (apply Hl; by left).
  apply IH. intros y Hy. apply Hl. by right.
Qed.

Lemma filter_kept_again aliases1 aliases2 (lines : list string) :
  (∀ h, h ∈ aliases1 ↔ h ∈ aliases2) →
  filter (λ line, ¬ mentions aliases2 line) (filter (λ line, ¬ mentions aliases1 line) lines)
  = filter (λ line, ¬ mentions aliases2 line) lines.
Proof.
  intros Hsame. rewrite list_filter_filter. apply list_filter_iff. intros line.
  assert (mentions aliases1 line ↔ mentions aliases2 line) as ->; [|tauto].
  unfold mentions. by setoid_rewrite Hsame.
Qed.

Lemma readlines_after_lines ls rest :
  Forall proper_line ls →
  Py.readlines (Py.writelines ls +:+ rest) = ls ++ Py.readlines rest.
Proof.
  induction 1 as [|l ls Hl _ IH]; [done|].
  rewrite writelines_cons, str_app_assoc, readlines_proper by done.
  by rewrite IH.
Qed.

Lemma readlines_app_terminated head rest :
  newline_terminated head →
  Py.readlines (head +:+ rest) = Py.readlines head ++ Py.readlines rest.
Proof.
  intros Ht. rewrite <- (writelines_readlines head) at 1.
  by apply readlines_after_lines, readlines_terminated_text.
Qed.

Lemma content_of_written m tr n path c :
  content_of (World (<[path := c]> m) tr n) path = c.
Proof. unfold content_of. cbn [files]. by rewrite lookup_insert_eq. Qed.

(** Claim C10, as amended.  On an [/etc/hosts] that is empty or ends
    with a newline, with aliases and IPs that hold no newline,
    [patch_etc_hosts] succeeds and the lines of the file afterwards are: the
    lines of the old file in which no alias occurs as a substring anywhere,
    in their order (every other line is dropped), followed by one line with
    the text [ip alias] for each alias, in the order of the dict, whose IP
    is neither [None] nor the empty string.  Every line of the new file ends
    with its newline. *)
Theorem patch_etc_hosts_lines (w : world) (hosts : list (string * option string))
    (content : string) :
  files w !! "/etc/hosts" = Some content →
  newline_terminated content →
  single_line_entries hosts →
  let kept := filter (λ line, ¬ mentions hosts.*1 line) (Py.readlines content) in
  let after := content_of (patch_etc_hosts hosts w).2 "/etc/hosts" in
  patch_etc_hosts hosts w
  = (inr (),
     World (<["/etc/hosts" := Py.writelines (kept ++ fresh_entries hosts)]> (files w))
           (trace w ++ [Log INFO "Patching /etc/host"])
           (spawned w)) ∧
  Py.readlines after = kept ++ fresh_entries hosts ∧
  Forall proper_line (Py.readlines after).
Proof.
  intros Hc Ht Hs kept after. subst after.
  rewrite (patch_etc_hosts_run w hosts content Hc). cbn [snd]. fold kept.
  split; [done|].
  assert (Forall proper_line (kept ++ fresh_entries hosts)) as Hp.
  { apply Forall_app. split; [|by apply fresh_entries_proper].
    apply Forall_forall. intros l [_ Hl]%list_elem_of_filter.
    by apply (proj1 (Forall_forall _ _) (readlines_terminated_text _ Ht)). }
  change "/etc/hosts" with etc_hosts. rewrite content_of_written.
  rewrite readlines_writelines by by apply lines_wf_proper.
  done.
Qed.

(** Property X1.  [stop] logs and patches /etc/hosts with both aliases
    mapped to None.  When the file exists the run succeeds; the lines of
    the new file are the lines of the old one that mention neither alias,
    in their order, so no line of the new file contains spark-master or
    spark-node; and no other file changes.  When the file is missing the run
    fails with the IOError of the open and no file changes. *)
Theorem stop_removes_alias_lines (w : world) :
  (∀ content, files w !! etc_hosts = Some content →
     ∃ w', stop w = (inr (), w') ∧
       Py.readlines (content_of w' etc_hosts)
       = filter (λ line, ¬ mentions ["spark-master"; "spark-node"] line)
                (Py.readlines content) ∧
       (∀ line, line ∈ Py.readlines (content_of w' etc_hosts) →
          ¬ substring "spark-master" line ∧ ¬ substring "spark-node" line) ∧
       (∀ path, path ≠ etc_hosts → files w' !! path = files w !! path)) ∧
  (files w !! etc_hosts = None →
     (stop w).1 = inl (IOError etc_hosts) ∧ files (stop w).2 = files w).
Proof.
  split.
  - intros content Hc. unfold stop. cbv [bind log emit].
    rewrite (patch_etc_hosts_run _ _ content) by done.
    eexists. split; [reflexivity|].
    rewrite content_of_written. cbn [files].
    change (fresh_entries _) with (@nil string). rewrite app_nil_r.
    change ([("spark-master", None); ("spark-node", None)].*1)
      with ["spark-master"; "spark-node"].
    rewrite readlines_writelines by apply lines_wf_filter, readlines_wf.
    split; [done|]. split.
    + intros line [Hno _]%list_elem_of_filter. split; intros Hs; apply Hno.
      * exists "spark-master". split; [by left|done].
      * exists "spark-node". split; [right; by left|done].
    + intros path Hne. by rewrite lookup_insert_ne.
  - intros Hc. unfold stop. cbv [bind log emit].
    by rewrite patch_etc_hosts_missing.
Qed.

(** Property X2.  Patching /etc/hosts twice in a row with dicts that have
    the same aliases leaves the files as the second patch alone leaves them,
    when the file is empty or ends with a newline and the IPs and aliases
    written by the first patch hold no newline: every line that the first
    patch appends mentions an alias and is removed by the second.  In
    particular [stop] after [start] removes what [start] added. *)
Theorem patch_etc_hosts_again (w : world) (hosts1 hosts2 : list (string * option string))
    (content : string) :
  files w !! etc_hosts = Some content →
  newline_terminated content →
  single_line_entries hosts1 →
  (∀ h, h ∈ hosts1.*1 ↔ h ∈ hosts2.*1) →
  let twice := bind (patch_etc_hosts hosts1) (λ _, patch_etc_hosts hosts2) in
  (twice w).1 = inr () ∧ files (twice w).2 = files (patch_etc_hosts hosts2 w).2.
Proof.
  intros Hc Ht Hs Hsame twice. subst twice. unfold bind.
  rewrite (patch_etc_hosts_run w hosts1 content) by done.
  erewrite (patch_etc_hosts_run _ hosts2); [|cbn [files]; apply lookup_insert_eq].
  rewrite (patch_etc_hosts_run w hosts2 content) by done.
  cbn [fst snd files]. split; [done|]. rewrite insert_insert_eq. do 3 f_equal.
  rewrite writelines_app, readlines_after_lines.
  2:{ apply Forall_forall. intros l [_ Hl]%list_elem_of_filter.
      by apply (proj1 (Forall_forall _ _) (readlines_terminated_text _ Ht)). }
  rewrite <- (str_app_empty_r (Py.writelines (fresh_entries hosts1))).
  rewrite readlines_after_lines by by apply fresh_entries_proper.
  change (Py.readlines "") with (@nil string). rewrite app_nil_r, filter_app.
  rewrite filter_kept_again by done.
  rewrite (filter_all_out _ (fresh_entries hosts1)); [by rewrite app_nil_r|].
  intros e He Hno. apply Hno. eapply fresh_entries_mention; [|done].
  intros h. apply Hsame.
Qed.

Lemma proper_line_glue tail e : no_nl tail → proper_line e → proper_line (tail +:+ e).
Proof.
  intros Ht (body & Hb & ->). exists (tail +:+ body).
  split; [by apply no_nl_app|by rewrite str_app_assoc].
Qed.

(** Property X3.  The file is read with [readlines] and written with
    [writelines], which adds no separator.  When the last line of
    /etc/hosts lacks its newline and mentions no alias, and the first patch
    appends at least one entry, that entry is glued to the last line; a
    second patch with the same aliases then removes the glued line.  One
    patch with the second dict keeps the unterminated line; the two patches
    in a row lose it. *)
Theorem unterminated_last_line_is_lost (w : world)
    (hosts1 hosts2 : list (string * option string)) (head tail : string) :
  files w !! etc_hosts = Some (head +:+ tail) →
  newline_terminated head →
  tail ≠ "" → no_nl tail → ¬ mentions hosts1.*1 tail →
  single_line_entries hosts1 →
  fresh_entries hosts1 ≠ [] →
  (∀ h, h ∈ hosts1.*1 ↔ h ∈ hosts2.*1) →
  let kept := filter (λ line, ¬ mentions hosts2.*1 line) (Py.readlines head) in
  let twice := bind (patch_etc_hosts hosts1) (λ _, patch_etc_hosts hosts2) in
  content_of (patch_etc_hosts hosts2 w).2 etc_hosts
  = Py.writelines (kept ++ [tail] ++ fresh_entries hosts2) ∧
  (twice w).1 = inr () ∧
  content_of (twice w).2 etc_hosts = Py.writelines (kept ++ fresh_entries hosts2).
Proof.
  intros Hc Ht Hne Hnl Hno Hs Hfresh Hsame kept twice.
  assert (Py.readlines (head +:+ tail) = Py.readlines head ++ [tail]) as Hlines.
  { rewrite readlines_app_terminated by done. by rewrite (readlines_no_nl tail). }
  assert (¬ mentions hosts2.*1 tail) as Hno2.
  { intros (h & Hh & Hsub). apply Hno. exists h. split; [by apply Hsame|done]. }
  split.
  { rewrite (patch_etc_hosts_run w hosts2 _ Hc). cbn [snd].
    rewrite content_of_written, Hlines, filter_app.
    rewrite (filter_cons _ tail), decide_True by done.
    by rewrite <- app_assoc. }
  subst twice. unfold bind.
  rewrite (patch_etc_hosts_run w hosts1 _ Hc).
  erewrite (patch_etc_hosts_run _ hosts2); [|cbn [files]; apply lookup_insert_eq].
  cbn [fst snd]. split; [done|]. rewrite content_of_written. f_equal. f_equal.
  destruct (fresh_entries hosts1) as [|e es] eqn:E; [done|].
  assert (Forall proper_line (e :: es)) as Hp.
  { rewrite <- E. by apply fresh_entries_proper. }
  apply Forall_cons in Hp as [He Hes].
  assert (∀ x, x ∈ e :: es → mentions hosts2.*1 x) as Hm.
  { intros x Hx. rewrite <- E in Hx. eapply fresh_entries_mention; [|done].
    intros h. apply Hsame. }
  rewrite Hlines, filter_app, (filter_cons _ tail), decide_True by done.
  rewrite <- app_assoc, writelines_app. cbn [app filter list_filter].
  rewrite readlines_after_lines.
  2:{ apply Forall_forall. intros l [_ Hl]%list_elem_of_filter.
      by apply (proj1 (Forall_forall _ _) (readlines_terminated_text _ Ht)). }
  rewrite !writelines_cons, <- str_app_assoc.
  rewrite (readlines_proper (tail +:+ e)) by by apply proper_line_glue.
  rewrite readlines_writelines by by apply lines_wf_proper.
  rewrite filter_app, filter_kept_again by done.
  rewrite (filter_all_out _ (_ :: es)); [by rewrite app_nil_r|].
  intros x [->|Hx]%elem_of_cons Hnot; apply Hnot.
  - apply mentions_app_r, Hm. by left.
  - apply Hm. by right.
Qed.

(** ** The region *)

Lemma span_spec p s a b :
  Py.span p s = (a, b) → s = a +:+ b ∧ all_in p a ∧ stops p b.
Proof.
  revert a b. induction s as [|c s IH]; intros a b; simpl.
  { by intros [= <- <-]. }
  destruct (p c) eqn:Hc.
  - destruct (Py.span p s) as [a' b'] eqn:E. intros [= <- <-].
    destruct (IH a' b' eq_refl) as (-> & ? & ?).
    repeat split; [by rewrite Hc|done..].
  - intros [= <- <-]. done.
Qed.

Lemma span_app p a b : all_in p a → stops p b → Py.span p (a +:+ b) = (a, b).
Proof.
  intros Ha Hb. induction a as [|c a IH].
  - destruct b as [|c b]; [done|]. simpl in *. by rewrite Hb.
  - destruct Ha as [Hc Ha]. rewrite app_cons. simpl.
    destruct (p c); [|done]. by rewrite IH.
Qed.

Lemma lower_not_digit c : Py.lower c → Py.digit c = false.
Proof.
  unfold Py.lower, Py.digit, Py.in_range. intros H%bool_decide_unpack.
  apply bool_decide_eq_false.
  change (nat_of_ascii "a") with 97%nat in H.
  change (nat_of_ascii "9") with 57%nat. lia.
Qed.

Lemma match_zone_sound zone r g : Py.match_zone zone = Some (r, g) → zone_pattern zone r.
Proof.
  unfold Py.match_zone. destruct zone as [|a [|b [|h1 s1]]]; try done.
  destruct (Py.lower a) eqn:Ha; [|done]. destruct (Py.lower b) eqn:Hb; [|done].
  case_bool_decide as Hh1; [|done]. subst h1. cbn [andb].
  destruct (Py.span Py.lower s1) as [letters s2] eqn:E1.
  apply span_spec in E1 as (-> & Hl & _).
  destruct s2 as [|h2 [|d s3]]; try done.
  case_bool_decide as Hne; [|done]. case_bool_decide as Hh2; [|done]. subst h2.
  destruct (Py.digit19 d) eqn:Hd; [|done]. cbn [andb].
  destruct (Py.span Py.digit s3) as [digits s4] eqn:E2.
  apply span_spec in E2 as (-> & Hds & _).
  destruct s4 as [|c s5]; [done|].
  destruct (Py.lower c) eqn:Hc; [|done].
  destruct (Py.at_end s5) eqn:He; [|done]. cbn [andb]. intros [= <- <-].
  exists a, b, letters, d, digits, c, s5.
  split; [done|]. split.
  { rewrite !app_cons. do 2 f_equal. rewrite !str_app_assoc, !app_cons.
    by rewrite !str_app_assoc. }
  rewrite Ha, Hb, Hd, Hc. repeat split; try done.
  unfold Py.at_end in He. apply orb_true_iff in He as [He|He];
    apply bool_decide_eq_true in He; auto.
Qed.

Lemma match_zone_complete zone r :
  zone_pattern zone r → ∃ g, Py.match_zone zone = Some (r, g).
Proof.
  intros (a & b & letters & d & digits & c & tail
          & -> & -> & Ha & Hb & Hne & Hl & Hd & Hds & Hc & Ht).
  exists (String c "").
  rewrite !app_cons, !str_app_assoc, !app_cons, !str_app_assoc, app_cons.
  rewrite !app_empty_l. cbn [Py.match_zone].
  apply Is_true_true in Ha, Hb, Hd. rewrite Ha, Hb.
  rewrite bool_decide_eq_true_2 by done. cbn [andb].
  rewrite span_app; [|done|by unfold stops]. rewrite Hd.
  rewrite !(bool_decide_eq_true_2 _) by done. cbn [andb].
  rewrite span_app; [|done|by apply lower_not_digit].
  apply Is_true_true in Hc. rewrite Hc.
  assert (Py.at_end tail = true) as ->; [|done].
  unfold Py.at_end. destruct Ht as [-> | ->]; [done|].
  apply orb_true_iff. right. by apply bool_decide_eq_true.
Qed.

(** Claim C6.  [region] returns the first group for every availability
    zone that matches the pattern (two lower-case letters, hyphen, lower-case
    letters, hyphen, a number without leading zero, one lower-case letter),
    and raises the assertion error, returning nothing, for every zone that
    does not.  In particular "us-west-2a" gives "us-west-2", and "uswest2a"
    raises. *)
Theorem region_parses_zone (self : SparkTools) (w : world) :
  let zone := availability_zone self in
  (∀ r, zone_pattern zone r →
     region self w
     = (inr r, World (files w) (trace w ++ [Log INFO "Region is '%s'"]) (spawned w))) ∧
  ((∀ r, ¬ zone_pattern zone r) → region self w = (inl AssertionError, w)) ∧
  (zone = "us-west-2a" → (region self w).1 = inr "us-west-2") ∧
  (zone = "uswest2a" → (region self w).1 = inl AssertionError).
Proof.
  intros zone. unfold region. fold zone. repeat split.
  - intros r (g & ->)%match_zone_complete. done.
  - intros Hno. destruct (Py.match_zone zone) as [[r g]|] eqn:E; [|done].
    by apply match_zone_sound, Hno in E.
  - by intros ->.
  - by intros ->.
Qed.

(** ** The claims on the small cluster *)

Ltac solve_worker_entries :=
  repeat first
    [ apply List.Forall_nil
    | apply List.Forall_cons;
      [ split;
        [ discriminate
        | repeat first
            [ apply List.Forall_nil
            | apply List.Forall_cons;
              [ let ip := fresh "ip" in
                let H := fresh "H" in
                intros ip H; apply ip_portion_unique in H; vm_compute in H;
                subst ip; solve_clean | ] ] ] | ] ].

(** Two sequences of registration calls with the same IP portions. *)
Lemma worker_entries_demo1 : worker_entries [[rsa_b]; [rsa_a; rsa_b]].
Proof. solve_worker_entries. Defined.

Lemma worker_entries_demo2 : worker_entries [[rsa_a]; [rsa_b]].
Proof. solve_worker_entries. Defined.

(** On a slaves file that lists 10.0.0.7, untidily, both sequences leave
    the three IPs in ascending order. *)
Lemma membership_merge_canonical_witness :
  worker_entries [[rsa_b]; [rsa_a; rsa_b]] ∧
  content_of (register_workers coordinator [[rsa_b]; [rsa_a; rsa_b]]
                (with_file (slaves_path "10.0.0.1") ("  10.0.0.7" +:+ Py.nl +:+ Py.nl)
                   no_files)).2
             (slaves_path "10.0.0.1")
  = "10.0.0.2" +:+ Py.nl +:+ "10.0.0.3" +:+ Py.nl +:+ "10.0.0.7" +:+ Py.nl
  ∧
  content_of (register_workers coordinator [[rsa_a]; [rsa_b]]
                (with_file (slaves_path "10.0.0.1") ("  10.0.0.7" +:+ Py.nl +:+ Py.nl)
                   no_files)).2
             (slaves_path "10.0.0.1")
  = content_of (register_workers coordinator [[rsa_b]; [rsa_a; rsa_b]]
                  (with_file (slaves_path "10.0.0.1") ("  10.0.0.7" +:+ Py.nl +:+ Py.nl)
                     no_files)).2
               (slaves_path "10.0.0.1").
Proof.
  split; [exact worker_entries_demo1|]. split; [vm_compute; reflexivity|].
  refine (proj2 (proj2 (membership_merge_canonical coordinator
            (with_file (slaves_path "10.0.0.1") ("  10.0.0.7" +:+ Py.nl +:+ Py.nl) no_files)
            "10.0.0.1" [[rsa_b]; [rsa_a; rsa_b]] _ _ _ worker_entries_demo1))
          [[rsa_a]; [rsa_b]] _ worker_entries_demo2 _).
  - vm_compute. reflexivity.
  - vm_compute. discriminate.
  - discriminate.
  - discriminate.
  - intros x. rewrite !registered_ips_of.
    change (ips_of [[rsa_a]; [rsa_b]]) with ["10.0.0.2"; "10.0.0.3"].
    change (ips_of [[rsa_b]; [rsa_a; rsa_b]]) with ["10.0.0.3"; "10.0.0.2"; "10.0.0.3"].
    rewrite !elem_of_cons. tauto.
Defined.

(** The format matters.  IP portions are stored as given but lines are
    stripped when they are read back, so with an IP portion that ends in a
    space the same two calls leave different files in the two orders. *)
Remark membership_merge_order_matters :
  content_of (register_workers coordinator
                [["10.0.0.2 :rsa:BBB"]; ["10.0.0.2:rsa:BBB"]] no_files).2
             (slaves_path "10.0.0.1")
  = "10.0.0.2" +:+ Py.nl
  ∧
  content_of (register_workers coordinator
                [["10.0.0.2:rsa:BBB"]; ["10.0.0.2 :rsa:BBB"]] no_files).2
             (slaves_path "10.0.0.1")
  = "10.0.0.2" +:+ Py.nl +:+ "10.0.0.2 " +:+ Py.nl
  ∧
  canonical (list_to_set (ips_of [["10.0.0.2 :rsa:BBB"]; ["10.0.0.2:rsa:BBB"]]))
  = "10.0.0.2" +:+ Py.nl +:+ "10.0.0.2 " +:+ Py.nl.
Proof. repeat split; vm_compute; reflexivity. Qed.

(** After initialization the file lists 10.0.0.2; it still does after a
    worker registers. *)
Lemma registration_keeps_ips_witness :
  ip_present "10.0.0.2"
    (content_of (manage_slaves coordinator None no_files).2 (slaves_path "10.0.0.1")) ∧
  ip_present "10.0.0.2"
    (content_of (register_workers coordinator [["10.0.0.9:rsa:K"]]
                   (manage_slaves coordinator None no_files).2).2
                (slaves_path "10.0.0.1")).
Proof.
  assert (ip_present "10.0.0.2"
    (content_of (manage_slaves coordinator None no_files).2 (slaves_path "10.0.0.1"))) as H.
  { split; [discriminate|solve_elem]. }
  split; [exact H|].
  refine (proj2 (registration_keeps_ips coordinator _ "10.0.0.1" [["10.0.0.9:rsa:K"]]
                   "10.0.0.2" _ _ H)).
  - vm_compute. reflexivity.
  - apply List.Forall_cons; [discriminate|apply List.Forall_nil].
Defined.

(** Four failures and a success on the fifth attempt return normally; five
    failures raise. *)
Lemma registration_retries_witness :
  (register_with_master (worker 4 [demo_tag]) (with_file host_key_path demo_pub no_files)).1
  = inr () ∧
  (register_with_master (worker 5 [demo_tag]) (with_file host_key_path demo_pub no_files)).1
  = inl RegistrationFailed.
Proof.
  split.
  - rewrite (proj1 (registration_retries (worker 4 [demo_tag])
                      (with_file host_key_path demo_pub no_files) demo_pub eq_refl) 4%nat).
    + reflexivity.
    + lia.
    + intros j Hj. simpl. rewrite decide_True by lia. discriminate.
    + reflexivity.
  - rewrite (proj1 (proj2 (registration_retries (worker 5 [demo_tag])
                      (with_file host_key_path demo_pub no_files) demo_pub eq_refl))).
    + reflexivity.
    + intros j Hj. simpl. rewrite decide_True by lia. discriminate.
Defined.

(** A worker finds the single instance of the master. *)
Lemma master_ip_of_worker_witness :
  master_id (worker 0 [demo_tag]) ≠ instance_id (worker 0 [demo_tag]) ∧
  (master_ip (worker 0 [demo_tag]) no_files).1 = inr (Some "10.0.0.1").
Proof.
  split; [discriminate|].
  rewrite (proj1 (master_ip_of_worker (worker 0 [demo_tag]) no_files ltac:(discriminate))
             {| id := "i-m"; private_ip_address := Some "10.0.0.1" |}).
  - reflexivity.
  - vm_compute. reflexivity.
Defined.

(** The coordinator answers with its own IP. *)
Lemma master_ip_of_coordinator_witness :
  master_id coordinator = instance_id coordinator ∧
  ∃ evs, master_ip coordinator no_files = (inr (Some "10.0.0.1"), World ∅ ([] ++ evs) 0) ∧
         Forall (λ e, ¬ is_directory_query e) evs.
Proof. split; [reflexivity|]. exact (master_ip_of_coordinator coordinator no_files eq_refl). Defined.

(** The line for the entry of a worker. *)
Lemma known_hosts_gains_entry_line_witness :
  host_key_line "10.0.0.5:ecdsa-sha2:AAAA" = "10.0.0.5 ecdsa-sha2 AAAA" ∧
  has_line (content_of (manage_slaves coordinator (Some ["10.0.0.5:ecdsa-sha2:AAAA"])
                          no_files).2 (known_hosts_path coordinator))
           (host_key_line "10.0.0.5:ecdsa-sha2:AAAA").
Proof.
  split; [reflexivity|].
  refine (proj1 (proj2 (proj2 (known_hosts_gains_entry_line coordinator no_files "10.0.0.1"
            ["10.0.0.5:ecdsa-sha2:AAAA"] "10.0.0.5:ecdsa-sha2:AAAA" _ _ _ _ _)))).
  - vm_compute. reflexivity.
  - vm_compute. discriminate.
  - solve_elem.
  - discriminate.
  - solve_no_nl.
Defined.

(** Registering a worker entry gives a line that starts with the IP of the
    worker; no line with the alias of the master appears. *)
Lemma known_hosts_line_keeps_ip :
  content_of (manage_slaves coordinator (Some ["10.0.0.5:ecdsa-sha2:AAAA"]) no_files).2
             (known_hosts_path coordinator)
  = "10.0.0.5 ecdsa-sha2 AAAA" +:+ Py.nl
  ∧
  ¬ has_line (content_of (manage_slaves coordinator (Some ["10.0.0.5:ecdsa-sha2:AAAA"])
                            no_files).2 (known_hosts_path coordinator))
             "spark-master ecdsa-sha2 AAAA".
Proof.
  split; [vm_compute; reflexivity|].
  unfold has_line. apply (bool_decide_unpack _). vm_compute. exact I.
Qed.



(** The line for the host key that the master published. *)
Lemma master_host_key_merge_witness :
  has_line (content_of (get_master_host_key (worker 0 [demo_tag]) no_files).2
                       (known_hosts_path (worker 0 [demo_tag])))
           "spark-master ecdsa-sha2-nistp256 AAAAE2".
Proof.
  destruct (proj2 (master_host_key_merge (worker 0 [demo_tag]) no_files) demo_tag []
              eq_refl ltac:(discriminate)) as (w' & Hrun & _ & _ & Hline).
  rewrite Hrun. apply Hline. solve_no_nl.
Defined.

(** The tag exists and its value is the empty string: a warning, and no
    file is written. *)
Lemma blank_host_key_tag_ignored :
  ec2_tags (ec2 (worker 0 [{| value := "" |}])) "i-m" "ssh_host_key" = [{| value := "" |}] ∧
  get_master_host_key (worker 0 [{| value := "" |}]) no_files
  = (inr (),
     World ∅ [Log INFO "Getting master's host key";
              GetAllTags "i-m" "ssh_host_key";
              Log WARN "Could not get master's host key"] 0).
Proof. split; vm_compute; reflexivity. Qed.

(** The stale line of an alias goes, the other line stays, and the alias
    with an IP gets its line. *)
Lemma patch_etc_hosts_lines_witness :
  newline_terminated demo_hosts ∧
  Py.readlines
    (content_of (patch_etc_hosts [("spark-master", Some "10.0.0.1"); ("spark-node", None)]
                   (with_file "/etc/hosts" demo_hosts no_files)).2 "/etc/hosts")
  = ["127.0.0.1 localhost" +:+ Py.nl; "10.0.0.1 spark-master" +:+ Py.nl].
Proof.
  assert (newline_terminated demo_hosts) as Ht.
  { right. by exists ("127.0.0.1 localhost" +:+ Py.nl +:+ "10.9.9.9 spark-node"). }
  assert (single_line_entries [("spark-master", Some "10.0.0.1"); ("spark-node", None)])
    as Hs.
  { intros host ip Hin _. rewrite !elem_of_cons, elem_of_nil in Hin.
    destruct Hin as [[= -> ->]|[[=]|[]]]. split; solve_no_nl. }
  split; [exact Ht|].
  rewrite (proj1 (proj2 (patch_etc_hosts_lines (with_file "/etc/hosts" demo_hosts no_files)
             [("spark-master", Some "10.0.0.1"); ("spark-node", None)] demo_hosts
             eq_refl Ht Hs))).
  vm_compute. reflexivity.
Defined.

(** An alias whose IP is the empty string gets no line. *)
Lemma empty_ip_gets_no_line :
  content_of (patch_etc_hosts [("spark-master", Some "")]
                (with_file "/etc/hosts" ("127.0.0.1 localhost" +:+ Py.nl) no_files)).2
             "/etc/hosts"
  = "127.0.0.1 localhost" +:+ Py.nl.
Proof. vm_compute. reflexivity. Qed.

(** The zone of the cluster matches the pattern and gives its region. *)
Lemma region_parses_zone_witness :
  zone_pattern "us-west-2a" "us-west-2" ∧
  (region coordinator no_files).1 = inr "us-west-2".
Proof.
  assert (zone_pattern "us-west-2a" "us-west-2") as H.
  { exists "u"%char, "s"%char, "west", "2"%char, "", "a"%char, "".
    repeat split; try reflexivity; try discriminate; try exact I. by left. }
  split; [exact H|].
  rewrite (proj1 (region_parses_zone coordinator no_files) "us-west-2" H). reflexivity.
Defined.

(** ** Beyond the claims: the rest of the node's life cycle *)

(** *** The host key *)

Lemma rev_app_rev_app s1 : ∀ s2 s3,
  String.rev_app (String.rev_app s1 s2) s3 = String.rev_app s2 (s1 +:+ s3).
Proof.
  induction s1 as [|a s1 IH]; intros s2 s3; [done|].
  simpl. by rewrite IH.
Qed.

Lemma rev_rev_app t : String.rev (String.rev_app t "") = t.
Proof. unfold String.rev. by rewrite rev_app_rev_app, str_app_empty_r. Qed.

Lemma words_go_chars t : ∀ acc s,
  all_in (λ c, negb (Ascii.is_space c)) t →
  String.words_go (Some acc) (t +:+ s) = String.words_go (Some (String.rev_app t acc)) s.
Proof.
  induction t as [|a t IH]; intros acc s; [done|]. intros [Ha Ht].
  rewrite app_cons. simpl. apply negb_True, Is_true_false in Ha. rewrite Ha.
  by apply IH.
Qed.

Lemma words_go_token t s :
  token t → String.words_go None (t +:+ s) = String.words_go (Some (String.rev_app t "")) s.
Proof.
  intros [Hne Ht]. destruct t as [|a t]; [done|]. destruct Ht as [Ha Ht].
  rewrite app_cons. simpl. apply negb_True, Is_true_false in Ha. rewrite Ha.
  by apply words_go_chars.
Qed.

Lemma words_token_space t sp s :
  token t → Ascii.is_space sp → String.words (t +:+ String sp s) = t :: String.words s.
Proof.
  intros Ht Hsp. unfold String.words. rewrite words_go_token by done.
  simpl. apply Is_true_true in Hsp. rewrite Hsp. simpl. by rewrite rev_rev_app.
Qed.

Lemma words_token_end t : token t → String.words t = [t].
Proof.
  intros Ht. unfold String.words. rewrite <- (str_app_empty_r t) at 1.
  rewrite words_go_token by done. simpl. by rewrite rev_rev_app.
Qed.

Lemma words_blank s : all_in Ascii.is_space s → String.words s = [].
Proof.
  unfold String.words. induction s as [|c s IH]; [done|]. intros [Hc Hs].
  simpl. apply Is_true_true in Hc. rewrite Hc. simpl. by apply IH.
Qed.

Lemma get_host_key_run w pub :
  files w !! host_key_path = Some pub →
  get_host_key w = (inr (Py.join ":" (take 2 (String.words pub))), w).
Proof.
  intros Hpub. cbv [get_host_key bind open_read ret]. fold host_key_path.
  by rewrite Hpub.
Qed.

(** Property X4.  [get_host_key] reads the public key file and changes
    nothing.  It returns the first two white-space separated tokens joined
    by a colon; the first token alone when there is no second one; the empty
    string when the file is blank; and it fails with IOError when the file
    is missing. *)
Theorem host_key_of_public_key_file (w : world) :
  (∀ algo key sp1 sp2 rest,
     files w !! host_key_path = Some (algo +:+ String sp1 (key +:+ String sp2 rest)) →
     token algo → token key → Ascii.is_space sp1 → Ascii.is_space sp2 →
     get_host_key w = (inr (algo +:+ ":" +:+ key), w)) ∧
  (∀ algo sp blank,
     files w !! host_key_path = Some (algo +:+ String sp blank) →
     token algo → Ascii.is_space sp → all_in Ascii.is_space blank →
     get_host_key w = (inr algo, w)) ∧
  (∀ blank,
     files w !! host_key_path = Some blank → all_in Ascii.is_space blank →
     get_host_key w = (inr "", w)) ∧
  (files w !! host_key_path = None →
     get_host_key w = (inl (IOError host_key_path), w)).
Proof.
  repeat split.
  - intros algo key sp1 sp2 rest Hpub Ha Hk H1 H2.
    rewrite (get_host_key_run _ _ Hpub).
    by rewrite words_token_space, words_token_space.
  - intros algo sp blank Hpub Ha Hsp Hb.
    rewrite (get_host_key_run _ _ Hpub).
    by rewrite words_token_space, words_blank.
  - intros blank Hpub Hb. rewrite (get_host_key_run _ _ Hpub).
    by rewrite words_blank.
  - intros Hpub. cbv [get_host_key bind open_read ret]. fold host_key_path.
    by rewrite Hpub.
Qed.

(** *** Tokens *)

Lemma isspace_is_space c : Py.isspace c = Ascii.is_space c.
Proof. by destruct c as [[] [] [] [] [] [] [] []]. Qed.

Lemma nonspace_no_nl t : all_in (λ c, negb (Ascii.is_space c)) t → no_nl t.
Proof.
  induction t as [|c t IH]; [done|]. intros [Hc Ht]. split; [|auto].
  intros ->. done.
Qed.

Lemma nonspace_rstrip t : all_in (λ c, negb (Ascii.is_space c)) t → Py.rstrip t = t.
Proof.
  induction t as [|c t IH]; [done|]. intros [Hc Ht]. simpl. rewrite IH by done.
  destruct t; [|done]. rewrite isspace_is_space.
  apply negb_True, Is_true_false in Hc. by rewrite Hc.
Qed.

Lemma token_clean t : token t → clean t.
Proof.
  intros [Hne Ht]. split; [|by apply nonspace_no_nl].
  unfold Py.strip. destruct t as [|c t]; [done|]. simpl.
  rewrite isspace_is_space. destruct Ht as [Hc Ht].
  pose proof Hc as Hc'. apply negb_True, Is_true_false in Hc'. rewrite Hc'.
  by apply (nonspace_rstrip (String c t)).
Qed.

Lemma free_of_app c s t : free_of c s → free_of c t → free_of c (s +:+ t).
Proof. induction s as [|d s IH]; [done|]. intros [? ?] ?. rewrite app_cons. split; auto. Qed.

Lemma translate_free a b s : free_of a s → translate a b s = s.
Proof.
  induction s as [|c s IH]; [done|]. intros [Hc Hs]. simpl.
  rewrite decide_False by done. by rewrite IH.
Qed.

Lemma host_key_line_entry ip algo key :
  free_of ":" ip → free_of ":" algo → free_of ":" key →
  host_key_line (ip +:+ ":" +:+ algo +:+ ":" +:+ key) = ip +:+ " " +:+ algo +:+ " " +:+ key.
Proof.
  intros Hi Ha Hk. rewrite host_key_line_translate, !translate_app.
  by rewrite (translate_free _ _ ip), (translate_free _ _ algo), (translate_free _ _ key).
Qed.

(** *** Runs of [add_host_keys] and [manage_slaves] *)

Section MoreRuns.
Variable self : SparkTools.

Lemma add_host_keys_run_any host_keys globally w :
  ∃ evs, add_host_keys self host_keys globally w
  = (inr (),
     World (<[known_hosts_file self globally :=
               canonical (list_to_set (stripped_lines
                                         (content_of w (known_hosts_file self globally)))
                          ∪ list_to_set (host_key_line <$> host_keys))]> (files w))
           (trace w ++ evs) (spawned w)).
Proof.
  eexists. unfold add_host_keys.
  cbv [bind open_append readlines flock emit ret]. cbn [files trace spawned].
  rewrite write_sorted_run. cbn [files trace spawned].
  rewrite insert_insert_eq, lookup_insert_eq. reflexivity.
Qed.

Lemma master_ip_fails w e :
  (master_ip self w).1 = inl e →
  ∃ evs, ∀ w', master_ip self w' = (inl e, World (files w') (trace w' ++ evs) (spawned w')).
Proof.
  destruct (master_ip_frame self) as (r & evs & H). rewrite H. simpl.
  intros ->. by exists evs.
Qed.

End MoreRuns.

Lemma canonical_shape (S : gset string) :
  ∃ l, canonical S = Py.join Py.nl (l ++ [""]) ∧ ascending l ∧ "" ∉ l.
Proof.
  exists (Py.sorted_list (S ∖ {[""]})). split; [done|]. split; [apply ascending_sorted_list|].
  rewrite elem_of_sorted_list, elem_of_difference, elem_of_singleton. tauto.
Qed.

(** Property X5.  When the master's IP cannot be determined,
    [manage_slaves] fails with the exception of the lookup before it opens
    the slaves file: no file is created or changed and no child process is
    run. *)
Theorem manage_slaves_without_master (self : SparkTools) (w : world) (e : exc)
    (slaves_to_add : option (list string)) :
  (master_ip self w).1 = inl e →
  (manage_slaves self slaves_to_add w).1 = inl e ∧
  files (manage_slaves self slaves_to_add w).2 = files w ∧
  spawned (manage_slaves self slaves_to_add w).2 = spawned w.
Proof.
  intros (evs & Hip)%master_ip_fails. unfold manage_slaves.
  cbv [bind log emit]. by rewrite Hip.
Qed.

(** Property X6.  On a node whose master IP is known, [manage_slaves]
    runs no child process and changes no file other than the slaves file
    and the known-hosts file.  With a non-empty list of entries, or with a
    directory all of whose listed workers have a private IP, it succeeds
    and leaves the slaves file as a strictly ascending list of non-empty
    entries, each followed by a newline, whatever the files held.
    Otherwise, that is when it initializes from a directory that lists a
    worker without private IP, it raises TypeError, leaves the slaves file
    empty and changes no other file. *)
Theorem manage_slaves_leaves_canonical (self : SparkTools) (w : world) (ip : string)
    (slaves_to_add : option (list string)) :
  (master_ip self w).1 = inr (Some ip) →
  let w' := (manage_slaves self slaves_to_add w).2 in
  spawned w' = spawned w ∧
  (∀ path, path ≠ slaves_path ip → path ≠ known_hosts_path self →
     files w' !! path = files w !! path) ∧
  (all_strings self slaves_to_add →
     (manage_slaves self slaves_to_add w).1 = inr () ∧
     ∃ l, content_of w' (slaves_path ip) = Py.join Py.nl (l ++ [""]) ∧
          ascending l ∧ "" ∉ l) ∧
  (¬ all_strings self slaves_to_add →
     (manage_slaves self slaves_to_add w).1 = inl TypeError ∧
     content_of w' (slaves_path ip) = "" ∧
     ∀ path, path ≠ slaves_path ip → files w' !! path = files w !! path).
Proof.
  intros Hip w'. subst w'.
  destruct slaves_to_add as [[|e es]|].
  2:{ destruct (manage_slaves_add_slaves self w ip e es Hip) as (evs & ->).
      match goal with |- context [add_host_keys _ _ _ ?w1] =>
        destruct (add_host_keys_run self (e :: es) w1) as (evs' & ->) end.
      cbn [fst snd files spawned]. split; [done|]. split.
      { intros path H1 H2. by rewrite !lookup_insert_ne. }
      split; [|by intros []]. intros _. split; [done|].
      unfold content_of at 1. cbn [files].
      destruct (decide (known_hosts_path self = slaves_path ip)) as [->|Hne].
      - rewrite lookup_insert_eq. apply canonical_shape.
      - rewrite lookup_insert_ne, lookup_insert_eq by done. apply canonical_shape. }
  all: try change (manage_slaves self (Some []) w) with (manage_slaves self None w);
    destruct (manage_slaves_init_cases self w ip Hip)
      as [(Hall & S & evs & HS & ->)|(Hno & evs & ->)];
    cbn [fst snd files spawned]; rewrite content_of_insert;
    (split; [done|]);
    (split; [intros path H1 H2; by rewrite lookup_insert_ne|]);
    (split; [intros ?|intros ?]); try done.
  all: try (split; [done|apply canonical_shape]).
  all: split; [done|]; split; [done|]; intros path H1; by rewrite lookup_insert_ne.
Qed.

(** Property X14.  When the master instance has no private IP, the
    [master_ip] property is None, and [manage_slaves] raises TypeError
    where it builds the path of the slaves file, before it opens any file:
    no file is created or changed and no child process is run. *)
Theorem manage_slaves_master_without_ip (self : SparkTools) (w : world)
    (slaves_to_add : option (list string)) :
  (master_ip self w).1 = inr None →
  (manage_slaves self slaves_to_add w).1 = inl TypeError ∧
  files (manage_slaves self slaves_to_add w).2 = files w ∧
  spawned (manage_slaves self slaves_to_add w).2 = spawned w.
Proof.
  intros (evs & Hip)%master_ip_run. unfold manage_slaves.
  cbv [bind log emit]. by rewrite Hip.
Qed.

(** Property X7.  [add_host_keys] never drops a known host.  Every
    non-empty stripped line of the known-hosts file it works on (the
    system-wide one or the user's one, as [globally] or the effective uid
    decides) is a line of that file afterwards; the file is left as a
    strictly ascending list of non-empty entries, each followed by a
    newline; and no other file changes. *)
Theorem add_host_keys_keeps_known_hosts (self : SparkTools) (w : world)
    (host_keys : list string) (globally : option bool) (x : string) :
  let path := known_hosts_file self globally in
  let w' := (add_host_keys self host_keys globally w).2 in
  x ≠ "" → x ∈ stripped_lines (content_of w path) →
  (add_host_keys self host_keys globally w).1 = inr () ∧
  has_line (content_of w' path) x ∧
  (∃ l, content_of w' path = Py.join Py.nl (l ++ [""]) ∧ ascending l ∧ "" ∉ l) ∧
  (∀ other, other ≠ path → files w' !! other = files w !! other).
Proof.
  intros path w' Hne Hx. subst w'.
  destruct (add_host_keys_run_any self host_keys globally w) as (evs & ->).
  cbn [fst snd]. fold path. rewrite content_of_written.
  split; [done|]. split; [|split; [apply canonical_shape|]].
  - rewrite canonical_terminated. apply has_line_terminated.
    + rewrite elem_of_sorted_list, elem_of_difference, elem_of_union,
        elem_of_list_to_set, elem_of_singleton. tauto.
    + by apply (stripped_lines_clean (content_of w path)).
  - intros other Ho. cbn [files]. by rewrite lookup_insert_ne.
Qed.

(** Property X8.  Registering the same entries a second time changes no
    file: for entries whose IP portion and whose known-hosts line are clean,
    on a node whose known-hosts file is not the slaves file, two calls of
    [manage_slaves] in a row leave the files as one call leaves them. *)
Theorem registering_again_changes_nothing (self : SparkTools) (w : world) (ip : string)
    (to_add : list string) :
  (master_ip self w).1 = inr (Some ip) →
  known_hosts_path self ≠ slaves_path ip →
  to_add ≠ [] →
  Forall (λ e, clean (ip_of e) ∧ clean (host_key_line e)) to_add →
  let once := manage_slaves self (Some to_add) in
  let twice := bind once (λ _, once) in
  (twice w).1 = inr () ∧ files (twice w).2 = files (once w).2.
Proof.
  intros Hip Hpath Hne Hclean once twice. subst once twice.
  destruct to_add as [|e es]; [done|]. unfold bind.
  destruct (manage_slaves_add_run self w ip e es Hip)
    as (w1 & -> & keys1 & Hf1 & _ & Hk1).
  assert ((master_ip self w1).1 = inr (Some ip)) as Hip1.
  { by rewrite (master_ip_indep self w1 w). }
  destruct (manage_slaves_add_run self w1 ip e es Hip1)
    as (w2 & -> & keys2 & Hf2 & _ & Hk2).
  cbn [fst snd]. split; [done|].
  specialize (Hk1 Hpath). specialize (Hk2 Hpath).
  assert (content_of w1 (slaves_path ip) = merged (content_of w (slaves_path ip)) (e :: es))
    as Hs1.
  { unfold content_of at 1. by rewrite Hf1, lookup_insert_ne, lookup_insert_eq. }
  assert (content_of w1 (known_hosts_path self) = canonical keys1) as Hh1.
  { unfold content_of at 1. by rewrite Hf1, lookup_insert_eq. }
  assert (merged (content_of w1 (slaves_path ip)) (e :: es)
          = merged (content_of w (slaves_path ip)) (e :: es)) as Es.
  { rewrite Hs1. unfold merged. rewrite stripped_canonical.
    - apply canonical_ext. apply set_eq. intros x.
      rewrite !elem_of_difference, !elem_of_union, !elem_of_difference, !elem_of_union.
      tauto.
    - intros x [Hx|Hx]%elem_of_union.
      + apply elem_of_list_to_set in Hx. by eapply stripped_lines_clean.
      + apply elem_of_list_to_set, list_elem_of_fmap in Hx as (y & -> & Hy).
        by apply (proj1 (Forall_forall _ _) Hclean). }
  assert (canonical keys2 = canonical keys1) as Ek.
  { rewrite Hk2, Hh1, stripped_canonical.
    - apply canonical_ext. rewrite Hk1. apply set_eq. intros x.
      rewrite !elem_of_difference, !elem_of_union, !elem_of_difference, !elem_of_union.
      tauto.
    - rewrite Hk1. intros x [Hx|Hx]%elem_of_union.
      + apply elem_of_list_to_set in Hx. by eapply stripped_lines_clean.
      + apply elem_of_list_to_set, list_elem_of_fmap in Hx as (y & -> & Hy).
        by apply (proj1 (Forall_forall _ _) Hclean). }
  rewrite Hf2, Es, Ek, Hf1.
  rewrite (insert_insert_ne (<[_:=_]> (files w))) by done.
  by rewrite !insert_insert_eq.
Qed.

(** *** The poll for the master's instance ID *)

Lemma world_eta w : World (files w) (trace w) (spawned w) = w.
Proof. by destruct w. Qed.

Lemma master_id_poll_idle self fuel : ∀ w,
  from_option value "" (head (ec2_tags (ec2 self) (instance_id self) "spark_master")) = "" →
  master_id_poll self fuel w
  = (inr None, World (files w) (trace w ++ idle_polls self fuel) (spawned w)).
Proof.
  induction fuel as [|fuel IH]; intros w Htag.
  { cbn. by rewrite app_nil_r, world_eta. }
  cbn [master_id_poll].
  cbv [bind get_instance_tag get_all_tags log sleep emit ret]. cbn [files trace spawned].
  pose proof (λ w', IH w' Htag) as IH'. clear IH.
  destruct (ec2_tags (ec2 self) (instance_id self) "spark_master") as [|t ts].
  - rewrite IH'. cbn [files trace spawned idle_polls].
    by rewrite <- !app_assoc.
  - simpl in Htag. rewrite Htag, IH'.
    cbn [files trace spawned idle_polls]. by rewrite <- !app_assoc.
Qed.

(** Property X9.  The [master_id] property first connects to the region
    of the node.  When the availability zone does not match the pattern,
    the assertion of [region] fails before any tag is read and nothing is
    logged.  Otherwise, when the node's spark_master tag has a non-empty
    value, the first poll returns it after one query and one log line, with
    no sleep.  When the tag is missing or empty, every poll issues one
    query, logs one warning and sleeps five seconds, and the loop neither
    returns a value nor raises, however many polls are run. *)
Theorem master_id_polls_until_tagged (self : SparkTools) (w : world) :
  let tags := ec2_tags (ec2 self) (instance_id self) "spark_master" in
  let connected := trace w ++ [Log INFO "Region is '%s'"] in
  ((∀ r, ¬ zone_pattern (availability_zone self) r) →
     ∀ fuel, master_id_loop self fuel w = (inl AssertionError, w)) ∧
  (∀ r t ts, zone_pattern (availability_zone self) r →
     tags = t :: ts → value t ≠ "" →
     ∀ fuel, master_id_loop self (S fuel) w
     = (inr (Some (value t)),
        World (files w)
              (connected ++ [GetAllTags (instance_id self) "spark_master";
                             Log INFO "Master's instance ID is '%s'"])
              (spawned w))) ∧
  (∀ r, zone_pattern (availability_zone self) r →
     from_option value "" (head tags) = "" →
     ∀ fuel, master_id_loop self fuel w
     = (inr None, World (files w) (connected ++ idle_polls self fuel) (spawned w))).
Proof.
  intros tags connected. subst connected. repeat split.
  - intros Hno fuel. unfold master_id_loop, ec2_connect, region. unfold bind at 1 2.
    destruct (Py.match_zone (availability_zone self)) as [[r g]|] eqn:E; [|done].
    by apply match_zone_sound, Hno in E.
  - intros r t ts (g & Hz)%match_zone_complete Htags Hval fuel.
    unfold master_id_loop, ec2_connect, region. rewrite Hz.
    cbn [master_id_poll].
    cbv [bind get_instance_tag get_all_tags log emit ret]. cbn [files trace spawned].
    fold tags. rewrite Htags. destruct (value t) as [|c v] eqn:Ev; [done|].
    cbn [files trace spawned]. by rewrite <- !app_assoc.
  - intros r (g & Hz)%match_zone_complete Htag fuel.
    unfold master_id_loop, ec2_connect, region. rewrite Hz.
    cbv [bind log emit ret]. cbn [files trace spawned].
    by rewrite master_id_poll_idle.
Qed.

(** *** What a worker sends and what the master stores *)

Section Exchange.
Variable self : SparkTools.

Lemma get_master_host_key_run w t ts :
  ec2_tags (ec2 self) (master_id self) "ssh_host_key" = t :: ts →
  value t ≠ "" →
  ∃ evs, get_master_host_key self w
  = (inr (),
     World (<[known_hosts_path self :=
               canonical (list_to_set (stripped_lines (content_of w (known_hosts_path self)))
                          ∪ list_to_set [host_key_line ("spark-master:" +:+ value t)])]>
              (files w))
           (trace w ++ evs) (spawned w)).
Proof.
  intros Htags Hval. unfold get_master_host_key.
  cbv [bind log emit get_instance_tag get_all_tags ret]. cbn [files trace spawned].
  rewrite Htags. destruct (value t) as [|c key] eqn:Ev; [done|].
  match goal with |- context [add_host_keys _ ?ks _ ?w1] =>
    destruct (add_host_keys_run self ks w1) as (evs & ->) end.
  eexists. cbn [files trace spawned]. rewrite <- !app_assoc. reflexivity.
Qed.

End Exchange.

(** Property X10.  What the master reads with [get_host_key], once it is
    the value of the master's ssh_host_key tag, reaches the worker's known
    hosts under the alias: for a public key file that starts with an
    algorithm and a key free of colons, the value is the two joined by a
    colon, and [get_master_host_key] on the worker succeeds and leaves the
    line made of spark-master, the algorithm and the key, separated by
    single spaces, in the worker's known-hosts file. *)
Theorem master_host_key_reaches_worker (worker : SparkTools) (wm ww : world)
    (algo key : string) (sp1 sp2 : ascii) (rest k : string) (ts : list Tag) :
  files wm !! host_key_path = Some (algo +:+ String sp1 (key +:+ String sp2 rest)) →
  token algo → token key → Ascii.is_space sp1 → Ascii.is_space sp2 →
  free_of ":" algo → free_of ":" key →
  (get_host_key wm).1 = inr k →
  ec2_tags (ec2 worker) (master_id worker) "ssh_host_key" = {| value := k |} :: ts →
  k = algo +:+ ":" +:+ key ∧
  (get_master_host_key worker ww).1 = inr () ∧
  has_line (content_of (get_master_host_key worker ww).2 (known_hosts_path worker))
           ("spark-master " +:+ algo +:+ " " +:+ key).
Proof.
  intros Hpub Ha Hk H1 H2 Hfa Hfk Hget Htag.
  rewrite (get_host_key_run _ _ Hpub) in Hget. cbn [fst] in Hget.
  rewrite words_token_space, words_token_space in Hget by done.
  injection Hget as <-. change (Py.join ":" (take 2 (algo :: key :: String.words rest)))
    with (algo +:+ ":" +:+ key) in *.
  split; [done|].
  destruct (get_master_host_key_run worker ww _ _ Htag) as (evs & ->).
  { destruct algo; [by destruct Ha|done]. }
  cbn [fst snd value]. split; [done|]. rewrite content_of_written.
  assert (host_key_line ("spark-master:" +:+ algo +:+ ":" +:+ key)
          = "spark-master " +:+ algo +:+ " " +:+ key) as Hline.
  { change ("spark-master:" +:+ algo +:+ ":" +:+ key)
      with ("spark-master" +:+ ":" +:+ algo +:+ ":" +:+ key).
    by rewrite host_key_line_entry. }
  rewrite Hline, canonical_terminated. apply has_line_terminated.
  - rewrite elem_of_sorted_list, elem_of_difference, elem_of_union,
      !elem_of_list_to_set, elem_of_singleton, list_elem_of_singleton.
    split; [by right|done].
  - apply (no_nl_app "spark-master "); [solve_no_nl|].
    apply no_nl_app; [by apply nonspace_no_nl, Ha|].
    apply (no_nl_app " "); [solve_no_nl|by apply nonspace_no_nl, Hk].
Qed.

(** Property X11.  The argument that [register_with_master] sends is an
    entry that [manage_slaves] accepts.  For a worker whose public key file
    starts with an algorithm and a key free of colons, whose IP is a clean
    non-empty string without colon and whose first attempt succeeds, the
    last event of the registration is the ssh call whose last argument is
    the IP, the algorithm and the key joined by colons.  Running
    [manage_slaves] with that entry on the master succeeds, lists the
    worker's IP in the slaves file and adds the line made of the IP, the
    algorithm and the key to the master's known hosts. *)
Theorem worker_registration_reaches_master (worker master : SparkTools) (ww wm : world)
    (mip algo key : string) (sp1 sp2 : ascii) (rest : string) :
  files ww !! host_key_path = Some (algo +:+ String sp1 (key +:+ String sp2 rest)) →
  token algo → token key → Ascii.is_space sp1 → Ascii.is_space sp2 →
  free_of ":" algo → free_of ":" key →
  node_ip worker ≠ "" → clean (node_ip worker) → free_of ":" (node_ip worker) →
  exit_status worker (spawned ww) = 0 →
  (master_ip master wm).1 = inr (Some mip) →
  known_hosts_path master ≠ slaves_path mip →
  let entry := node_ip worker +:+ ":" +:+ algo +:+ ":" +:+ key in
  let wm' := (manage_slaves master (Some [entry]) wm).2 in
  (register_with_master worker ww).1 = inr () ∧
  last (trace (register_with_master worker ww).2)
  = Some (Call [sudo; "-u"; user worker; "ssh"; "spark-master";
                "sparkbox-manage-slaves"; entry] 0) ∧
  (manage_slaves master (Some [entry]) wm).1 = inr () ∧
  ip_present (node_ip worker) (content_of wm' (slaves_path mip)) ∧
  has_line (content_of wm' (known_hosts_path master))
           (node_ip worker +:+ " " +:+ algo +:+ " " +:+ key).
Proof.
  intros Hpub Ha Hk H1 H2 Hfa Hfk Hne Hclean Hfi Hok Hip Hpath entry wm'.
  assert (registration_command worker
            (algo +:+ String sp1 (key +:+ String sp2 rest))
          = [sudo; "-u"; user worker; "ssh"; "spark-master";
             "sparkbox-manage-slaves"; entry]) as Hcmd.
  { unfold registration_command. by rewrite words_token_space, words_token_space. }
  assert (register_with_master worker ww
          = (inr (),
             World (files ww)
                   ((trace ww ++ [Log INFO "Registering with master"])
                    ++ [Call [sudo; "-u"; user worker; "ssh"; "spark-master";
                              "sparkbox-manage-slaves"; entry] 0])
                   (spawned ww + 0 + 1))) as ->.
  { unfold register_with_master. cbv [bind log emit].
    rewrite (register_attempts_succeeds worker _ _
               (algo +:+ String sp1 (key +:+ String sp2 rest)) 0%nat);
      cbn [files trace spawned].
    - by rewrite Hcmd.
    - done.
    - simpl. lia.
    - intros j Hj. lia.
    - by rewrite Nat.add_0_r. }
  cbn [fst snd trace]. split; [done|]. split; [apply last_snoc|].
  subst wm'.
  destruct (manage_slaves_add_run master wm mip entry [] Hip)
    as (w' & -> & keys & Hf & _ & Hkeys).
  specialize (Hkeys Hpath). cbn [fst snd]. split; [done|]. split.
  - split; [done|]. unfold content_of at 1.
    rewrite Hf, lookup_insert_ne, lookup_insert_eq by done. cbn [default].
    apply canonical_keeps; [|done..].
    apply elem_of_union_r, elem_of_list_to_set. simpl.
    subst entry. rewrite ip_of_prefix by done. by left.
  - unfold content_of at 1. rewrite Hf, lookup_insert_eq. cbn [default].
    rewrite canonical_terminated. apply has_line_terminated.
    + rewrite elem_of_sorted_list, elem_of_difference, Hkeys, elem_of_union,
        !elem_of_list_to_set, elem_of_singleton. simpl.
      rewrite list_elem_of_singleton. subst entry.
      rewrite host_key_line_entry by done. split; [by right|].
      destruct (node_ip worker); done.
    + apply no_nl_app; [apply Hclean|].
      apply (no_nl_app " "); [solve_no_nl|].
      apply no_nl_app; [by apply nonspace_no_nl, Ha|].
      apply (no_nl_app " "); [solve_no_nl|by apply nonspace_no_nl, Hk].
Qed.

(** *** Registration and the region *)

Lemma register_attempts_files self tries : ∀ w,
  files (register_attempts self tries w).2 = files w.
Proof.
  induction tries as [|t tries IH]; intros w; [done|].
  destruct (files w !! host_key_path) as [pub|] eqn:Hpub.
  - rewrite (register_attempts_step self _ _ _ pub) by done. cbv zeta.
    case_decide; [done|]. by rewrite IH.
  - cbn [register_attempts]. cbv [bind get_host_key open_read]. fold host_key_path.
    by rewrite Hpub.
Qed.

(** Property X12.  [register_with_master] writes no file, whether it
    succeeds, gives up or fails.  When the public key file is missing it
    fails with the IOError of the open after its first log line, before any
    child process is run. *)
Theorem registration_writes_no_file (self : SparkTools) (w : world) :
  files (register_with_master self w).2 = files w ∧
  (files w !! host_key_path = None →
     register_with_master self w
     = (inl (IOError host_key_path),
        World (files w) (trace w ++ [Log INFO "Registering with master"]) (spawned w))).
Proof.
  split.
  - unfold register_with_master. cbv [bind log emit].
    by rewrite register_attempts_files.
  - intros Hpub. unfold register_with_master. cbv [bind log emit].
    cbn [register_attempts seq]. cbv [bind get_host_key open_read].
    cbn [files trace spawned]. fold host_key_path. by rewrite Hpub.
Qed.

Lemma last_char_app s c t : last_char (s +:+ String c t) = last_char (String c t).
Proof.
  induction s as [|d s IH]; [done|]. rewrite app_cons.
  change (last_char (String d (s +:+ String c t)))
    with (match s +:+ String c t with "" => Some d | _ => last_char (s +:+ String c t) end).
  rewrite IH. by destruct s.
Qed.

Lemma last_char_digits d digits :
  Py.digit19 d → all_in Py.digit digits →
  ∃ c, last_char (String d digits) = Some c ∧ Py.digit c.
Proof.
  revert d. induction digits as [|e digits IH]; intros d Hd Hds.
  - exists d. split; [done|]. unfold Py.digit19, Py.digit, Py.in_range in *.
    apply bool_decide_unpack in Hd. apply bool_decide_pack.
    change (nat_of_ascii "1") with 49%nat in Hd. change (nat_of_ascii "0") with 48%nat. lia.
  - destruct Hds as [He Hds].
    change (last_char (String d (String e digits))) with (last_char (String e digits)).
    clear IH Hd. revert e He. induction digits as [|f digits IH]; intros e He.
    + by exists e.
    + destruct Hds as [Hf Hds].
      change (last_char (String e (String f digits))) with (last_char (String f digits)).
      by apply IH.
Qed.

(** Property X13.  When [region] returns, the availability zone is the
    region followed by exactly one lower-case letter (and possibly one final
    newline), the region ends with a digit, and it is the only string that
    the pattern relates to the zone. *)
Theorem region_is_zone_without_letter (self : SparkTools) (w : world) (r : string) :
  (region self w).1 = inr r →
  (∃ c, Py.lower c ∧
        (availability_zone self = r +:+ String c "" ∨
         availability_zone self = r +:+ String c Py.nl)) ∧
  (∃ d, last_char r = Some d ∧ Py.digit d) ∧
  (∀ r', zone_pattern (availability_zone self) r' → r' = r).
Proof.
  unfold region. destruct (Py.match_zone (availability_zone self)) as [[r0 g]|] eqn:E; [|done].
  cbv [bind log emit ret]. cbn [fst]. intros [= <-].
  pose proof (match_zone_sound _ _ _ E)
    as (a & b & letters & d & digits & c & tail
        & Hr & Hz & Ha & Hb & Hne & Hl & Hd & Hds & Hc & Ht).
  split; [|split].
  - exists c. split; [done|]. rewrite Hz. destruct Ht as [-> | ->]; auto.
  - rewrite Hr.
    replace (String a (String b ("-" +:+ letters +:+ "-" +:+ String d digits)))
      with (String a (String b ("-" +:+ letters +:+ "-")) +:+ String d digits).
    + rewrite last_char_app. by apply last_char_digits.
    + rewrite !app_cons. do 2 f_equal. by rewrite !str_app_assoc.
  - intros r' (g' & Hz')%match_zone_complete. rewrite E in Hz'. by injection Hz'.
Qed.

(** ** The further properties on the small cluster *)

Lemma stop_removes_alias_lines_witness :
  Py.readlines (content_of (stop (with_file etc_hosts patched_hosts no_files)).2 etc_hosts)
  = ["127.0.0.1 localhost" +:+ Py.nl].
Proof.
  destruct (proj1 (stop_removes_alias_lines (with_file etc_hosts patched_hosts no_files))
              patched_hosts eq_refl) as (w' & Hrun & Hlines & _).
  rewrite Hrun. cbn [snd]. rewrite Hlines. vm_compute. reflexivity.
Defined.

Lemma single_line_start_hosts : single_line_entries start_hosts.
Proof.
  intros host ip Hin _. unfold start_hosts in Hin.
  rewrite !elem_of_cons, elem_of_nil in Hin.
  destruct Hin as [[= -> ->]|[[= -> ->]|[]]]; split; solve_no_nl.
Defined.

Lemma same_aliases_start_stop : ∀ h, h ∈ start_hosts.*1 ↔ h ∈ stop_hosts.*1.
Proof. intros h. reflexivity. Defined.

Lemma patch_etc_hosts_again_witness :
  newline_terminated demo_hosts ∧
  files (bind (patch_etc_hosts start_hosts) (λ _, patch_etc_hosts stop_hosts)
           (with_file etc_hosts demo_hosts no_files)).2
  = files (patch_etc_hosts stop_hosts (with_file etc_hosts demo_hosts no_files)).2.
Proof.
  assert (newline_terminated demo_hosts) as Ht.
  { right. by exists ("127.0.0.1 localhost" +:+ Py.nl +:+ "10.9.9.9 spark-node"). }
  split; [exact Ht|].
  exact (proj2 (patch_etc_hosts_again (with_file etc_hosts demo_hosts no_files)
                  start_hosts stop_hosts demo_hosts eq_refl Ht
                  single_line_start_hosts same_aliases_start_stop)).
Defined.

Lemma unterminated_last_line_is_lost_witness :
  content_of (patch_etc_hosts stop_hosts
                (with_file etc_hosts ("127.0.0.1 localhost" +:+ Py.nl +:+ "# end") no_files)).2
             etc_hosts
  = "127.0.0.1 localhost" +:+ Py.nl +:+ "# end"
  ∧
  content_of (bind (patch_etc_hosts start_hosts) (λ _, patch_etc_hosts stop_hosts)
                (with_file etc_hosts ("127.0.0.1 localhost" +:+ Py.nl +:+ "# end") no_files)).2
             etc_hosts
  = "127.0.0.1 localhost" +:+ Py.nl.
Proof.
  assert (¬ mentions start_hosts.*1 "# end") as Hno.
  { apply (bool_decide_unpack _). vm_compute. exact I. }
  destruct (unterminated_last_line_is_lost
              (with_file etc_hosts ("127.0.0.1 localhost" +:+ Py.nl +:+ "# end") no_files)
              start_hosts stop_hosts ("127.0.0.1 localhost" +:+ Py.nl) "# end"
              eq_refl (or_intror (ex_intro _ "127.0.0.1 localhost" eq_refl))
              ltac:(discriminate) ltac:(solve_no_nl) Hno single_line_start_hosts
              ltac:(discriminate) same_aliases_start_stop) as (H1 & _ & H2).
  split.
  - rewrite H1. vm_compute. reflexivity.
  - rewrite H2. vm_compute. reflexivity.
Defined.

Lemma host_key_of_public_key_file_witness :
  get_host_key (with_file host_key_path demo_pub no_files)
  = (inr "ecdsa-sha2-nistp256:AAAAE2", with_file host_key_path demo_pub no_files).
Proof.
  apply (proj1 (host_key_of_public_key_file (with_file host_key_path demo_pub no_files))
           "ecdsa-sha2-nistp256" "AAAAE2" " "%char " "%char ("root@host" +:+ Py.nl)).
  - reflexivity.
  - solve_token.
  - solve_token.
  - exact I.
  - exact I.
Defined.

Lemma worker_registration_reaches_master_witness :
  (register_with_master (worker 0 [demo_tag]) (with_file host_key_path demo_pub no_files)).1
  = inr () ∧
  ip_present "10.0.0.2"
    (content_of (manage_slaves coordinator
                   (Some ["10.0.0.2:ecdsa-sha2-nistp256:AAAAE2"]) no_files).2
                (slaves_path "10.0.0.1")) ∧
  has_line
    (content_of (manage_slaves coordinator
                   (Some ["10.0.0.2:ecdsa-sha2-nistp256:AAAAE2"]) no_files).2
                (known_hosts_path coordinator))
    "10.0.0.2 ecdsa-sha2-nistp256 AAAAE2".
Proof.
  destruct (worker_registration_reaches_master (worker 0 [demo_tag]) coordinator
              (with_file host_key_path demo_pub no_files) no_files
              "10.0.0.1" "ecdsa-sha2-nistp256" "AAAAE2" " "%char " "%char
              ("root@host" +:+ Py.nl)
              eq_refl ltac:(solve_token) ltac:(solve_token) I I
              ltac:(solve_free) ltac:(solve_free)
              ltac:(discriminate) ltac:(solve_clean) ltac:(solve_free)
              eq_refl eq_refl ltac:(vm_compute; discriminate))
    as (H1 & _ & _ & H2 & H3).
  split; [exact H1|]. split; [exact H2|exact H3].
Defined.

Lemma master_host_key_reaches_worker_witness :
  has_line (content_of (get_master_host_key (worker 0 [demo_tag]) no_files).2
                       (known_hosts_path (worker 0 [demo_tag])))
           "spark-master ecdsa-sha2-nistp256 AAAAE2".
Proof.
  exact (proj2 (proj2 (master_host_key_reaches_worker (worker 0 [demo_tag])
           (with_file host_key_path demo_pub no_files) no_files
           "ecdsa-sha2-nistp256" "AAAAE2" " "%char " "%char ("root@host" +:+ Py.nl)
           "ecdsa-sha2-nistp256:AAAAE2" []
           eq_refl ltac:(solve_token) ltac:(solve_token) I I
           ltac:(solve_free) ltac:(solve_free) eq_refl eq_refl))).
Defined.

Lemma manage_slaves_without_master_witness :
  (master_ip lost no_files).1 = inl StopIteration ∧
  (manage_slaves lost (Some [rsa_a]) no_files).1 = inl StopIteration ∧
  files (manage_slaves lost (Some [rsa_a]) no_files).2 = ∅.
Proof.
  split; [reflexivity|].
  destruct (manage_slaves_without_master lost no_files StopIteration (Some [rsa_a]) eq_refl)
    as (H1 & H2 & _).
  split; [exact H1|exact H2].
Defined.

Lemma stale_coordinator_unaddressed : ¬ all_addressed stale_coordinator.
Proof.
  intros Hall. assert (None ∈ enumeration stale_coordinator) as H.
  { apply (bool_decide_unpack _). vm_compute. exact I. }
  apply elem_of_enumeration in H as (i & Hi & Hip). by apply (Hall i).
Defined.

Lemma manage_slaves_leaves_canonical_witness :
  (∃ l, content_of (manage_slaves coordinator (Some [rsa_b; rsa_a])
                      (with_file (slaves_path "10.0.0.1") ("  10.0.0.7" +:+ Py.nl +:+ Py.nl)
                         no_files)).2
                   (slaves_path "10.0.0.1")
        = Py.join Py.nl (l ++ [""]) ∧ ascending l ∧ "" ∉ l) ∧
  content_of (manage_slaves coordinator None
                (with_file (slaves_path "10.0.0.1") ("10.0.0.9" +:+ Py.nl) no_files)).2
             (slaves_path "10.0.0.1")
  = "10.0.0.2" +:+ Py.nl +:+ "10.0.0.3" +:+ Py.nl ∧
  (manage_slaves stale_coordinator None
     (with_file (slaves_path "10.0.0.1") ("10.0.0.9" +:+ Py.nl) no_files)).1
  = inl TypeError ∧
  content_of (manage_slaves stale_coordinator None
                (with_file (slaves_path "10.0.0.1") ("10.0.0.9" +:+ Py.nl) no_files)).2
             (slaves_path "10.0.0.1")
  = "".
Proof.
  split.
  { exact (proj2 (proj1 (proj2 (proj2 (manage_slaves_leaves_canonical coordinator
             (with_file (slaves_path "10.0.0.1") ("  10.0.0.7" +:+ Py.nl +:+ Py.nl) no_files)
             "10.0.0.1" (Some [rsa_b; rsa_a]) eq_refl))) I)). }
  split; [vm_compute; reflexivity|].
  destruct (proj2 (proj2 (proj2 (manage_slaves_leaves_canonical stale_coordinator
              (with_file (slaves_path "10.0.0.1") ("10.0.0.9" +:+ Py.nl) no_files)
              "10.0.0.1" None eq_refl))) stale_coordinator_unaddressed) as (H1 & H2 & _).
  split; [exact H1|exact H2].
Defined.

Lemma manage_slaves_master_without_ip_witness :
  (master_ip orphan no_files).1 = inr None ∧
  (manage_slaves orphan (Some [rsa_a]) no_files).1 = inl TypeError ∧
  files (manage_slaves orphan (Some [rsa_a]) no_files).2 = ∅.
Proof.
  split; [reflexivity|].
  destruct (manage_slaves_master_without_ip orphan no_files (Some [rsa_a]) eq_refl)
    as (H1 & H2 & _).
  split; [exact H1|exact H2].
Defined.

Lemma add_host_keys_keeps_known_hosts_witness :
  has_line
    (content_of (add_host_keys coordinator ["10.0.0.3:rsa:CCC"] (Some true)
                   (with_file "/etc/ssh/ssh_known_hosts" ("  10.0.0.9 rsa K  ") no_files)).2
                "/etc/ssh/ssh_known_hosts")
    "10.0.0.9 rsa K".
Proof.
  refine (proj1 (proj2 (add_host_keys_keeps_known_hosts coordinator
            (with_file "/etc/ssh/ssh_known_hosts" ("  10.0.0.9 rsa K  ") no_files)
            ["10.0.0.3:rsa:CCC"] (Some true) "10.0.0.9 rsa K" _ _))).
  - discriminate.
  - solve_elem.
Defined.

Lemma registering_again_changes_nothing_witness :
  files (bind (manage_slaves coordinator (Some [rsa_a; rsa_b]))
           (λ _, manage_slaves coordinator (Some [rsa_a; rsa_b])) no_files).2
  = files (manage_slaves coordinator (Some [rsa_a; rsa_b]) no_files).2.
Proof.
  refine (proj2 (registering_again_changes_nothing coordinator no_files "10.0.0.1"
                   [rsa_a; rsa_b] eq_refl _ _ _)).
  - vm_compute. discriminate.
  - discriminate.
  - repeat first [apply List.Forall_nil
                 | apply List.Forall_cons; [split; solve_clean|]].
Defined.

Lemma master_id_polls_until_tagged_witness :
  (master_id_loop (worker 0 []) 1 no_files).1 = inr (Some "i-m") ∧
  (master_id_loop untagged 3 no_files).1 = inr None ∧
  length (trace (master_id_loop untagged 3 no_files).2) = 10%nat.
Proof.
  assert (zone_pattern "us-west-2a" "us-west-2") as Hz.
  { exists "u"%char, "s"%char, "west", "2"%char, "", "a"%char, "".
    repeat split; try reflexivity; try discriminate; try exact I. by left. }
  split; [|split].
  - rewrite (proj1 (proj2 (master_id_polls_until_tagged (worker 0 []) no_files))
               "us-west-2" {| value := "i-m" |} [] Hz eq_refl ltac:(discriminate) 0%nat).
    reflexivity.
  - rewrite (proj2 (proj2 (master_id_polls_until_tagged untagged no_files))
               "us-west-2" Hz eq_refl 3%nat).
    reflexivity.
  - rewrite (proj2 (proj2 (master_id_polls_until_tagged untagged no_files))
               "us-west-2" Hz eq_refl 3%nat).
    reflexivity.
Defined.

Lemma registration_writes_no_file_witness :
  (register_with_master (worker 0 [demo_tag]) no_files).1 = inl (IOError host_key_path) ∧
  spawned (register_with_master (worker 0 [demo_tag]) no_files).2 = 0%nat.
Proof.
  rewrite (proj2 (registration_writes_no_file (worker 0 [demo_tag]) no_files) eq_refl).
  split; reflexivity.
Defined.

Lemma region_is_zone_without_letter_witness :
  (region coordinator no_files).1 = inr "us-west-2" ∧
  ∃ c, Py.lower c ∧
       (availability_zone coordinator = "us-west-2" +:+ String c "" ∨
        availability_zone coordinator = "us-west-2" +:+ String c Py.nl).
Proof.
  split; [reflexivity|].
  exact (proj1 (region_is_zone_without_letter coordinator no_files "us-west-2" eq_refl)).
Defined.
